(** * light-modal: the modal manager of [src/index.js]

    A shallow embedding of the [Modal] singleton: the stack of open modal
    ids, the metadata table, the two flags, and the part of the page the
    manager reads and writes (containers looked up by id, the body's
    overflow style, the focused element, the History API calls, the
    dispatched custom events and the pending [setTimeout] callbacks).

    Conventions of the embedding:
    - JavaScript values are [JsVal]; numbers are integers (no NaN, no
      fractions), objects are opaque references.
    - [__meta] is a [gmap string Meta]; ids are assumed not to name a
      property of [Object.prototype].
    - The document is a finite map from ids to containers; no element is
      added to or removed from the document while the manager runs.
    - Listeners of the four custom events are passive: a dispatched event
      is appended to the log [events] and nothing else happens.
    - [setTimeout] appends a callback to [timers]; the event loop may run
      any pending callback ([AFire n]), which covers every order real
      delays can produce.
    - The History API is recorded as two counters of the calls made
      ([pushState], [back]); the browser's [popstate] event is a turn of
      the event loop like a key press or a click ([APopstate]), whether a
      [back] call or the user caused it. *)

From stdpp Require Import base gmap list strings.

Local Open Scope string_scope.
Local Open Scope list_scope.

(** ** JavaScript values *)

Inductive JsVal : Type :=
  | JUndefined
  | JNull
  | JBool (b : bool)
  | JNum (n : Z)
  | JStr (str : string)
  | JObj (ref : nat).

Global Instance JsVal_eq_dec : EqDecision JsVal.
Proof. solve_decision. Defined.

(** ToBoolean. *)
Definition truthy (v : JsVal) : bool :=
  match v with
  | JUndefined | JNull => false
  | JBool b => b
  | JNum n => negb (Z.eqb n 0)
  | JStr str => negb (String.eqb str "")
  | JObj _ => true
  end.

(** [x = d] in a destructuring pattern or a parameter list: the default is
    taken exactly when the value is [undefined]. *)
Definition or_default (d v : JsVal) : JsVal :=
  match v with
  | JUndefined => d
  | _ => v
  end.

(** [a || b]. *)
Definition js_or (a b : JsVal) : JsVal := if truthy a then a else b.

(** ** Data model *)

(** A focusable DOM element, by identity. *)
Definition Elem := nat.

(** The object stored in [__meta[id]] (index.js line 92). *)
Record Meta : Type := mkMeta {
  m_focus : JsVal;
  m_closable : JsVal;
  m_backdropClose : JsVal;
  m_opener : option Elem;
  m_duration : JsVal;
  m_data : JsVal
}.

(** The [options] argument of [open]; an absent property is [JUndefined]. *)
Record Options : Type := mkOptions {
  o_focus : JsVal;
  o_closable : JsVal;
  o_backdropClose : JsVal;
  o_data : JsVal;
  o_duration : JsVal
}.

Definition no_options : Options :=
  mkOptions JUndefined JUndefined JUndefined JUndefined JUndefined.

(** The closure [clickHandler] created by one call of [open]: its identity
    and the variables it captures. *)
Record Handler : Type := mkHandler {
  h_uid : nat;
  h_id : string;
  h_backdropClose : JsVal
}.

Global Instance Handler_eq_dec : EqDecision Handler.
Proof. solve_decision. Defined.

(** The element [backdrop.querySelector(".modal")]. *)
Record ModalEl : Type := mkModalEl {
  ml_autofocus : option Elem;
  ml_focusable : list Elem;
  ml_transition : option JsVal
}.

(** A container element, as far as the manager touches it. *)
Record Backdrop : Type := mkBackdrop {
  b_open : bool;
  b_zIndex : option Z;
  b_transition : option JsVal;
  b_modal : option ModalEl;
  b_listeners : list Handler;
  b_handler : option Handler
}.

Inductive EventName : Type := EvOpen | EvOpened | EvClose | EvClosed.

Global Instance EventName_eq_dec : EqDecision EventName.
Proof. solve_decision. Defined.

(** One dispatched [CustomEvent]: its name and [detail]. *)
Record Event : Type := mkEvent {
  ev_name : EventName;
  ev_id : string;
  ev_data : JsVal
}.

(** The callbacks handed to [setTimeout], with the variables they capture. *)
Inductive Task : Type :=
  | TOpened (id : string) (focus data : JsVal)
  | TClosed (id : string) (opener : option Elem) (data : JsVal).

Record Timer : Type := mkTimer {
  t_task : Task;
  t_delay : JsVal
}.


Record State : Type := mkState {
  __stack : list string;
  __meta : gmap string Meta;
  __popped : bool;
  __transitioning : bool;
  dom : gmap string Backdrop;
  body_overflow : string;
  activeElement : option Elem;
  hist_pushes : nat;
  hist_backs : nat;
  events : list Event;
  timers : list Timer;
  next_closure : nat
}.

Definition __zIndex : Z := 1000%Z.
Definition __duration : Z := 300%Z.

(** ** Field updates *)

Definition set_stack (f : list string -> list string) (s : State) : State :=
  mkState (f (__stack s)) (__meta s) (__popped s) (__transitioning s) (dom s)
    (body_overflow s) (activeElement s) (hist_pushes s) (hist_backs s)
    (events s) (timers s) (next_closure s).

Definition set_meta (f : gmap string Meta -> gmap string Meta) (s : State) : State :=
  mkState (__stack s) (f (__meta s)) (__popped s) (__transitioning s) (dom s)
    (body_overflow s) (activeElement s) (hist_pushes s) (hist_backs s)
    (events s) (timers s) (next_closure s).

Definition set_popped (b : bool) (s : State) : State :=
  mkState (__stack s) (__meta s) b (__transitioning s) (dom s)
    (body_overflow s) (activeElement s) (hist_pushes s) (hist_backs s)
    (events s) (timers s) (next_closure s).

Definition set_transitioning (b : bool) (s : State) : State :=
  mkState (__stack s) (__meta s) (__popped s) b (dom s)
    (body_overflow s) (activeElement s) (hist_pushes s) (hist_backs s)
    (events s) (timers s) (next_closure s).

Definition set_dom (f : gmap string Backdrop -> gmap string Backdrop) (s : State) : State :=
  mkState (__stack s) (__meta s) (__popped s) (__transitioning s) (f (dom s))
    (body_overflow s) (activeElement s) (hist_pushes s) (hist_backs s)
    (events s) (timers s) (next_closure s).

Definition set_body_overflow (v : string) (s : State) : State :=
  mkState (__stack s) (__meta s) (__popped s) (__transitioning s) (dom s)
    v (activeElement s) (hist_pushes s) (hist_backs s)
    (events s) (timers s) (next_closure s).

Definition set_activeElement (e : option Elem) (s : State) : State :=
  mkState (__stack s) (__meta s) (__popped s) (__transitioning s) (dom s)
    (body_overflow s) e (hist_pushes s) (hist_backs s)
    (events s) (timers s) (next_closure s).

Definition set_hist_pushes (f : nat -> nat) (s : State) : State :=
  mkState (__stack s) (__meta s) (__popped s) (__transitioning s) (dom s)
    (body_overflow s) (activeElement s) (f (hist_pushes s)) (hist_backs s)
    (events s) (timers s) (next_closure s).

Definition set_hist_backs (f : nat -> nat) (s : State) : State :=
  mkState (__stack s) (__meta s) (__popped s) (__transitioning s) (dom s)
    (body_overflow s) (activeElement s) (hist_pushes s) (f (hist_backs s))
    (events s) (timers s) (next_closure s).

Definition set_events (f : list Event -> list Event) (s : State) : State :=
  mkState (__stack s) (__meta s) (__popped s) (__transitioning s) (dom s)
    (body_overflow s) (activeElement s) (hist_pushes s) (hist_backs s)
    (f (events s)) (timers s) (next_closure s).

Definition set_timers (f : list Timer -> list Timer) (s : State) : State :=
  mkState (__stack s) (__meta s) (__popped s) (__transitioning s) (dom s)
    (body_overflow s) (activeElement s) (hist_pushes s) (hist_backs s)
    (events s) (f (timers s)) (next_closure s).

Definition set_next_closure (f : nat -> nat) (s : State) : State :=
  mkState (__stack s) (__meta s) (__popped s) (__transitioning s) (dom s)
    (body_overflow s) (activeElement s) (hist_pushes s) (hist_backs s)
    (events s) (timers s) (f (next_closure s)).

(** Updates of one container, in place in the document. *)
Definition upd_backdrop (id : string) (f : Backdrop -> Backdrop) (s : State) : State :=
  set_dom (alter f id) s.

Definition bd_set_open (v : bool) (b : Backdrop) : Backdrop :=
  mkBackdrop v (b_zIndex b) (b_transition b) (b_modal b) (b_listeners b) (b_handler b).

Definition bd_set_zIndex (z : Z) (b : Backdrop) : Backdrop :=
  mkBackdrop (b_open b) (Some z) (b_transition b) (b_modal b) (b_listeners b) (b_handler b).

Definition bd_set_transition (d : JsVal) (b : Backdrop) : Backdrop :=
  mkBackdrop (b_open b) (b_zIndex b) (Some d) (b_modal b) (b_listeners b) (b_handler b).

Definition ml_set_transition (d : JsVal) (m : ModalEl) : ModalEl :=
  mkModalEl (ml_autofocus m) (ml_focusable m) (Some d).

Definition bd_set_modal_transition (d : JsVal) (b : Backdrop) : Backdrop :=
  mkBackdrop (b_open b) (b_zIndex b) (b_transition b)
    (ml_set_transition d <$> b_modal b) (b_listeners b) (b_handler b).

(** [addEventListener("click", h)] followed by
    [backdrop.__wabModalClickHandler = h]. *)
Definition bd_attach (h : Handler) (b : Backdrop) : Backdrop :=
  mkBackdrop (b_open b) (b_zIndex b) (b_transition b) (b_modal b)
    (b_listeners b ++ [h]) (Some h).

(** The clean-up of [__close]: when the property holds a handler, that
    handler is removed from the listeners and the property is deleted. *)
Definition bd_detach (b : Backdrop) : Backdrop :=
  match b_handler b with
  | Some h =>
      mkBackdrop (b_open b) (b_zIndex b) (b_transition b) (b_modal b)
        (filter (λ h', h' ≠ h) (b_listeners b)) None
  | None => b
  end.

(** ** Platform calls *)

(** [dispatch(eventName, modalId, data = null)]. *)
Definition dispatch (name : EventName) (id : string) (data : JsVal) (s : State) : State :=
  set_events (λ l, l ++ [mkEvent name id (or_default JNull data)]) s.

(** [element.focus()]. *)
Definition focus_elem (e : Elem) (s : State) : State :=
  set_activeElement (Some e) s.

Definition setTimeout (t : Task) (delay : JsVal) (s : State) : State :=
  set_timers (λ l, l ++ [mkTimer t delay]) s.

(** How a call ends: it returns, or a [TypeError] escapes it (reading a
    property of [null]). The state reached so far stays either way. *)
Inductive Completion : Type := Normal | Throw.

(** [__stack.indexOf(id)] then [__stack.splice(idx, 1)]: the first
    occurrence goes, if there is one. *)
Fixpoint splice_first (id : string) (l : list string) : list string :=
  match l with
  | [] => []
  | x :: l' => if decide (x = id) then l' else x :: splice_first id l'
  end.

(** ** The manager *)

(** [open(id, options = {})], index.js lines 72-139. *)
Definition open (id : string) (options : Options) (s : State) : Completion * State :=
  match dom s !! id with
  | None => (Normal, s)
  | Some backdrop =>
      let s := set_hist_pushes S s in
      let s := set_popped false s in
      let s := set_transitioning true s in
      let focus := or_default (JBool true) (o_focus options) in
      let closable := or_default (JBool true) (o_closable options) in
      let backdropClose := or_default (JBool true) (o_backdropClose options) in
      let data := or_default JNull (o_data options) in
      let duration := or_default (JNum __duration) (o_duration options) in
      let opener := activeElement s in
      let s := set_meta <[id := mkMeta focus closable backdropClose opener duration data]> s in
      let s := set_stack (λ l, l ++ [id]) s in
      let s := dispatch EvOpen id data s in
      let s := upd_backdrop id (bd_set_zIndex (__zIndex + Z.of_nat (length (__stack s)))) s in
      let modal := b_modal backdrop in
      let cs :=
        if decide (duration = JNum __duration) then (Normal, s)
        else
          let s := upd_backdrop id (bd_set_transition duration) s in
          match modal with
          | None => (Throw, s)
          | Some _ => (Normal, upd_backdrop id (bd_set_modal_transition duration) s)
          end in
      match cs with
      | (Throw, s) => (Throw, s)
      | (Normal, s) =>
          let s := upd_backdrop id (bd_set_open true) s in
          let s := set_body_overflow "hidden" s in
          let clickHandler := mkHandler (next_closure s) id backdropClose in
          let s := set_next_closure S s in
          let s := upd_backdrop id (bd_attach clickHandler) s in
          (Normal, setTimeout (TOpened id focus data) duration s)
      end
  end.

(** The callback [open] hands to [setTimeout], lines 124-138. *)
Definition on_opened (id : string) (focus data : JsVal) (s : State) : Completion * State :=
  let s := set_transitioning false s in
  if truthy focus then
    match dom s !! id ≫= b_modal with
    | None => (Throw, s)
    | Some modal =>
        let s :=
          match ml_autofocus modal with
          | Some autofocusable => focus_elem autofocusable s
          | None =>
              match ml_focusable modal with
              | first :: _ => focus_elem first s
              | [] => s
              end
          end in
        (Normal, dispatch EvOpened id data s)
    end
  else (Normal, dispatch EvOpened id data s).

(** [__close(id, popstate)], lines 156-199, up to the [setTimeout]. *)
Definition __close (id : string) (popstate : bool) (s : State) : State :=
  match dom s !! id, __meta s !! id with
  | Some _, Some m =>
      let s := set_transitioning true s in
      let opener := m_opener m in
      let duration := m_duration m in
      let data := m_data m in
      let s := dispatch EvClose id data s in
      let s := upd_backdrop id (bd_set_open false) s in
      let s := if Nat.eqb (length (__stack s)) 0 then set_body_overflow "" s else s in
      let s := upd_backdrop id bd_detach s in
      let s := if popstate then s else set_hist_backs S s in
      setTimeout (TClosed id opener data) duration s
  | _, _ => s
  end.

(** The callback [__close] hands to [setTimeout], lines 185-198. *)
Definition on_closed (id : string) (opener : option Elem) (data : JsVal) (s : State) : State :=
  let s := set_transitioning false s in
  let s := set_meta (delete id) s in
  let s := set_stack (splice_first id) s in
  let s :=
    match opener with
    | Some e => if Nat.eqb (length (__stack s)) 0 then focus_elem e s else s
    | None => s
    end in
  dispatch EvClosed id data s.

Definition close (id : string) (s : State) : State := __close id false s.

(** [__meta[topModalId]?.closable !== false]. *)
Definition closable_not_false (m : option Meta) : bool :=
  match m with
  | Some m => bool_decide (m_closable m ≠ JBool false)
  | None => true
  end.

(** [__closeTop(popstate)], lines 205-212. *)
Definition __closeTop (popstate : bool) (s : State) : State :=
  match last (__stack s) with
  | Some topModalId =>
      if closable_not_false (__meta s !! topModalId)
      then __close topModalId popstate s
      else s
  | None => s
  end.

Definition closeTop (s : State) : State := __closeTop false s.

(** [closeAll()]: a copy of the stack, reversed, each id closed in turn. *)
Definition closeAll (s : State) : State :=
  fold_left (λ s id, close id s) (reverse (__stack s)) s.

(** [getData(id)]: the value returned, and the state after the call. *)
Definition getData (id : string) (s : State) : JsVal * State :=
  (js_or (from_option m_data JUndefined (__meta s !! id)) JNull, s).

(** The [keydown] listener, lines 54-56. *)
Definition keydown (key : string) (s : State) : State :=
  if negb (__transitioning s) && bool_decide (key = "Escape") then closeTop s else s.

(** The [popstate] listener, lines 58-64. *)
Definition popstate (s : State) : State :=
  if negb (__popped s) && negb (Nat.eqb (length (__stack s)) 0) then
    let s := __closeTop true s in
    set_popped (Nat.eqb (length (__stack s)) 0) s
  else s.

(** Where a click lands: on the container itself, or on something inside
    it (the event then bubbles to the container with another target). *)
Inductive ClickTarget : Type := OnBackdrop | InsideModal.

(** The closure [clickHandler], lines 115-119. *)
Definition clickHandler (h : Handler) (target : ClickTarget) (s : State) : State :=
  match target with
  | OnBackdrop => if truthy (h_backdropClose h) then close (h_id h) s else s
  | InsideModal => s
  end.

Definition listeners_of (id : string) (s : State) : list Handler :=
  from_option b_listeners [] (dom s !! id).

(** A click event reaching the container [id]: the listeners registered
    when the dispatch starts run in order, one removed meanwhile is
    skipped. *)
Definition click (id : string) (target : ClickTarget) (s : State) : State :=
  fold_left
    (λ s h, if bool_decide (h ∈ listeners_of id s) then clickHandler h target s else s)
    (listeners_of id s) s.

(** ** The event loop *)

Definition run_task (t : Task) (s : State) : Completion * State :=
  match t with
  | TOpened id focus data => on_opened id focus data s
  | TClosed id opener data => (Normal, on_closed id opener data s)
  end.

(** The [n]-th pending timer fires. *)
Definition fire (n : nat) (s : State) : Completion * State :=
  match timers s !! n with
  | Some t => run_task (t_task t) (set_timers (delete n) s)
  | None => (Normal, s)
  end.

Inductive Action : Type :=
  | AOpen (id : string) (options : Options)
  | AClose (id : string)
  | ACloseTop
  | ACloseAll
  | AGetData (id : string)
  | AKeydown (key : string)
  | APopstate
  | AClick (id : string) (target : ClickTarget)
  | AFire (n : nat).

Definition exec (a : Action) (s : State) : Completion * State :=
  match a with
  | AOpen id options => open id options s
  | AClose id => (Normal, close id s)
  | ACloseTop => (Normal, closeTop s)
  | ACloseAll => (Normal, closeAll s)
  | AGetData id => (Normal, snd (getData id s))
  | AKeydown key => (Normal, keydown key s)
  | APopstate => (Normal, popstate s)
  | AClick id target => (Normal, click id target s)
  | AFire n => fire n s
  end.

(** One turn of the event loop after another; an escaped exception ends
    its turn and the page goes on. *)
Definition run (tr : list Action) (s : State) : State :=
  fold_left (λ s a, snd (exec a s)) tr s.

(** A freshly loaded page: [page] maps the id of each container to its
    [.modal] child, if it has one. *)
Definition initial (page : gmap string (option ModalEl)) (focused : option Elem) : State :=
  mkState [] ∅ false false
    ((λ m, mkBackdrop false None None m [] None) <$> page)
    "" focused 0 0 [] [] 0.

(** A page with two well-formed containers, used in the examples. *)
Definition demo_page : gmap string (option ModalEl) :=
  <["m1" := Some (mkModalEl None [7] None)]>
  (<["m2" := Some (mkModalEl (Some 9) [8; 9] None)]> ∅).

Definition demo : State := initial demo_page (Some 1).

Definition names_of (l : list Event) : list (EventName * string) :=
  map (λ e, (ev_name e, ev_id e)) l.

(** * Vocabulary of the statements *)

(** The metadata [open] stores for [options] when [opener] has the focus. *)
Definition meta_of (options : Options) (opener : option Elem) : Meta :=
  mkMeta (or_default (JBool true) (o_focus options))
         (or_default (JBool true) (o_closable options))
         (or_default (JBool true) (o_backdropClose options))
         opener
         (or_default (JNum __duration) (o_duration options))
         (or_default JNull (o_data options)).

(** The turns of the event loop that only close modals. *)
Definition closes_only (a : Action) : Prop :=
  match a with
  | AOpen _ _ | AFire _ => False
  | _ => True
  end.

(** [allowed a s]: the discipline lets [a] happen in state [s]. *)
Fixpoint disciplined (allowed : Action → State → bool) (tr : list Action) (s : State) : bool :=
  match tr with
  | [] => true
  | a :: tr' => allowed a s && disciplined allowed tr' (snd (exec a s))
  end.

(** What a turn of the event loop can do to the stack and the table. *)
Inductive sm_step (a : Action) (s s' : State) : Prop :=
  | sm_same : __stack s' = __stack s → __meta s' = __meta s → sm_step a s s'
  | sm_open id options :
      a = AOpen id options → is_Some (dom s !! id) →
      __stack s' = __stack s ++ [id] →
      __meta s' = <[id := meta_of options (activeElement s)]> (__meta s) →
      sm_step a s s'
  | sm_closed n id opener data delay :
      a = AFire n → timers s !! n = Some (mkTimer (TClosed id opener data) delay) →
      __stack s' = splice_first id (__stack s) →
      __meta s' = delete id (__meta s) →
      sm_step a s s'.

(** The data-model invariant: the stack has no duplicate, and an id is on
    the stack exactly when the table has an entry for it. *)
Definition consistent (s : State) : Prop :=
  NoDup (__stack s) ∧ ∀ id, id ∈ __stack s ↔ is_Some (__meta s !! id).

(** The discipline under which it holds: [open] is not called for an id
    that is still on the stack. *)
Definition no_reopen (a : Action) (s : State) : bool :=
  match a with
  | AOpen id _ => bool_decide (id ∉ __stack s)
  | _ => true
  end.

Definition stack_meta_trace : list Action :=
  [AOpen "m1" no_options; AOpen "m2" no_options; AClose "m1"; AFire 0;
   AFire 0; AFire 0; AOpen "m1" no_options].

(** The table never has an entry for an id that is off the stack; no
    discipline is needed for this half of the invariant. *)
Definition meta_in_stack (s : State) : Prop :=
  ∀ id, is_Some (__meta s !! id) → id ∈ __stack s.


(** A close of [id] has been requested and its timer has not fired yet. *)
Definition pending_closed (id : string) (s : State) : Prop :=
  ∃ t opener data, t ∈ timers s ∧ t_task t = TClosed id opener data.

Definition is_closed_of (id : string) (t : Timer) : bool :=
  match t_task t with
  | TClosed id' _ _ => bool_decide (id' = id)
  | TOpened _ _ _ => false
  end.

(** [id] has no metadata entry and no close of it is in flight. *)
Definition fully_closed (id : string) (s : State) : bool :=
  match __meta s !! id with
  | None => negb (existsb (is_closed_of id) (timers s))
  | Some _ => false
  end.

(** The discipline for the click listeners: [open] is called for an id
    only when it is fully closed. *)
Definition open_when_closed (a : Action) (s : State) : bool :=
  match a with
  | AOpen id _ => fully_closed id s
  | _ => true
  end.

(** Each container has at most one click listener, the one its
    [__wabModalClickHandler] property holds; that listener closes the
    container's own id, agrees with the stored [backdropClose], and is
    gone as soon as a close of the id is in flight. *)
Definition registered (b : Backdrop) : list Handler :=
  match b_handler b with
  | Some h => [h]
  | None => []
  end.

Definition handlers_ok (s : State) : Prop :=
  ∀ id b, dom s !! id = Some b →
    b_listeners b = registered b ∧
    ∀ h, b_handler b = Some h →
      h_id h = id ∧ ¬ pending_closed id s ∧
      ∃ m, __meta s !! id = Some m ∧ m_backdropClose m = h_backdropClose h.

Definition click_trace : list Action :=
  [AOpen "m1" no_options; AFire 0; AClick "m1" InsideModal;
   AClick "m1" OnBackdrop; AFire 0].

(** The life cycle of one modal id, as its events spell it. *)
Inductive Phase : Type := PClosed | POpening | POpen | PClosing.

Global Instance Phase_eq_dec : EqDecision Phase.
Proof. solve_decision. Defined.
















Definition close_names (ids : list string) : list (EventName * string) :=
  (λ id, (EvClose, id)) <$> ids.





(** * The earlier version of the manager, [src/unnamed/part_000]

    The same page and the same state; this version has no [__popped] and
    no [__transitioning] and never calls the History API, so its functions
    leave those fields alone. Its metadata object has no [focus] property,
    which reads as [undefined]; the property its [close] uses to find the
    click listener is called [__clickHandler] and is the field
    [b_handler]. *)
Module Part000.

(** [open(id, options = {})], part_000 lines 59-119. *)
Definition open (id : string) (options : Options) (s : State) : Completion * State :=
  match dom s !! id with
  | None => (Normal, s)
  | Some backdrop =>
      let focus := or_default (JBool true) (o_focus options) in
      let closable := or_default (JBool true) (o_closable options) in
      let backdropClose := or_default (JBool true) (o_backdropClose options) in
      let data := or_default JNull (o_data options) in
      let duration := or_default (JNum __duration) (o_duration options) in
      let opener := activeElement s in
      let s := set_meta <[id := mkMeta JUndefined closable backdropClose opener duration data]> s in
      let s := dispatch EvOpen id data s in
      let s := set_stack (λ l, l ++ [id]) s in
      let s := upd_backdrop id (bd_set_zIndex (__zIndex + Z.of_nat (length (__stack s)))) s in
      let modal := b_modal backdrop in
      let cs :=
        if decide (duration = JNum __duration) then (Normal, s)
        else
          let s := upd_backdrop id (bd_set_transition duration) s in
          match modal with
          | None => (Throw, s)
          | Some _ => (Normal, upd_backdrop id (bd_set_modal_transition duration) s)
          end in
      match cs with
      | (Throw, s) => (Throw, s)
      | (Normal, s) =>
          let s := upd_backdrop id (bd_set_open true) s in
          let s := set_body_overflow "hidden" s in
          let clickHandler := mkHandler (next_closure s) id backdropClose in
          let s := set_next_closure S s in
          let s := upd_backdrop id (bd_attach clickHandler) s in
          (Normal, setTimeout (TOpened id focus data) duration s)
      end
  end.

(** The callback [open] hands to [setTimeout], lines 107-118. *)
Definition on_opened (id : string) (focus data : JsVal) (s : State) : Completion * State :=
  if truthy focus then
    match dom s !! id ≫= b_modal with
    | None => (Throw, s)
    | Some modal =>
        let s :=
          match ml_autofocus modal with
          | Some autofocusable => focus_elem autofocusable s
          | None =>
              match ml_focusable modal with
              | first :: _ => focus_elem first s
              | [] => s
              end
          end in
        (Normal, dispatch EvOpened id data s)
    end
  else (Normal, dispatch EvOpened id data s).

(** [close(id)], lines 126-161, up to the [setTimeout]. *)
Definition close (id : string) (s : State) : State :=
  match dom s !! id, __meta s !! id with
  | Some _, Some m =>
      let opener := m_opener m in
      let duration := m_duration m in
      let data := m_data m in
      let s := dispatch EvClose id data s in
      let s := upd_backdrop id (bd_set_open false) s in
      let s := set_stack (splice_first id) s in
      let s := if Nat.eqb (length (__stack s)) 0 then set_body_overflow "" s else s in
      let s := upd_backdrop id bd_detach s in
      setTimeout (TClosed id opener data) duration s
  | _, _ => s
  end.

(** The callback [close] hands to [setTimeout], lines 154-160. *)
Definition on_closed (id : string) (opener : option Elem) (data : JsVal) (s : State) : State :=
  let s := set_meta (delete id) s in
  let s :=
    match opener with
    | Some e => if Nat.eqb (length (__stack s)) 0 then focus_elem e s else s
    | None => s
    end in
  dispatch EvClosed id data s.

(** [closeAll()], lines 166-169. *)
Definition closeAll (s : State) : State :=
  fold_left (λ s id, close id s) (reverse (__stack s)) s.

(** [getData(id)], lines 176-178. *)
Definition getData (id : string) (s : State) : JsVal * State :=
  (js_or (from_option m_data JUndefined (__meta s !! id)) JNull, s).

(** The [keydown] listener, lines 44-51. *)
Definition keydown (key : string) (s : State) : State :=
  if bool_decide (key = "Escape") && negb (Nat.eqb (length (__stack s)) 0) then
    match last (__stack s) with
    | Some topModalId =>
        if closable_not_false (__meta s !! topModalId) then close topModalId s else s
    | None => s
    end
  else s.

(** The closure [clickHandler], lines 98-102. *)
Definition clickHandler (h : Handler) (target : ClickTarget) (s : State) : State :=
  match target with
  | OnBackdrop => if truthy (h_backdropClose h) then close (h_id h) s else s
  | InsideModal => s
  end.

Definition click (id : string) (target : ClickTarget) (s : State) : State :=
  fold_left
    (λ s h, if bool_decide (h ∈ listeners_of id s) then clickHandler h target s else s)
    (listeners_of id s) s.

Definition run_task (t : Task) (s : State) : Completion * State :=
  match t with
  | TOpened id focus data => on_opened id focus data s
  | TClosed id opener data => (Normal, on_closed id opener data s)
  end.

Definition fire (n : nat) (s : State) : Completion * State :=
  match timers s !! n with
  | Some t => run_task (t_task t) (set_timers (delete n) s)
  | None => (Normal, s)
  end.

(** The turns of the event loop of this version. *)
Inductive Action : Type :=
  | AOpen (id : string) (options : Options)
  | AClose (id : string)
  | ACloseAll
  | AKeydown (key : string)
  | AClick (id : string) (target : ClickTarget)
  | AFire (n : nat).

Definition exec (a : Action) (s : State) : Completion * State :=
  match a with
  | AOpen id options => open id options s
  | AClose id => (Normal, close id s)
  | ACloseAll => (Normal, closeAll s)
  | AKeydown key => (Normal, keydown key s)
  | AClick id target => (Normal, click id target s)
  | AFire n => fire n s
  end.

Definition run (tr : list Action) (s : State) : State :=
  fold_left (λ s a, snd (exec a s)) tr s.

End Part000.

(** The page keeps its contract: every container has a [.modal] child. *)
Definition modal_everywhere (s : State) : Prop :=
  ∀ id b, dom s !! id = Some b → is_Some (b_modal b).

(** The body's overflow is "hidden" exactly while the stack is not empty. *)
Definition scroll_tracks_stack (s : State) : Prop :=
  (__stack s ≠ [] → body_overflow s = "hidden") ∧
  (__stack s = [] → body_overflow s = "").





Definition any_turn (a : Action) (s : State) : bool := true.

(** No event of the log carries [undefined] as its data. *)
Definition data_defined (s : State) : Prop :=
  ∀ e, e ∈ events s → ev_data e ≠ JUndefined.

(** A page whose one container has no [.modal] child. *)
Definition bare_page : gmap string (option ModalEl) := <["m0" := None]> ∅.


(** Every id on the stack has a container. *)
Definition stack_in_dom (s : State) : Prop :=
  ∀ id, id ∈ __stack s → is_Some (dom s !! id).

(** The stacking order the container of [id] was given, if any. *)
Definition zIndex_of (id : string) (s : State) : option Z :=
  dom s !! id ≫= b_zIndex.

Definition page_with_modals (page : gmap string (option ModalEl)) : Prop :=
  ∀ id m, page !! id = Some m → is_Some m.

(** The metadata the earlier [open] stores. *)
Definition meta_of_000 (options : Options) (opener : option Elem) : Meta :=
  mkMeta JUndefined
         (or_default (JBool true) (o_closable options))
         (or_default (JBool true) (o_backdropClose options))
         opener
         (or_default (JNum __duration) (o_duration options))
         (or_default JNull (o_data options)).

Definition tracked (s : State) : Prop := modal_everywhere s ∧ scroll_tracks_stack s.

(** * What one call does *)

(** The scenario of two modals closed by the Escape key, one at a time. *)
Example scenario_escape :
  let s := run [AOpen "m1" no_options; AOpen "m2" no_options; AFire 0; AFire 0;
                AKeydown "Escape"; AFire 0; AKeydown "Escape"; AFire 0] demo in
  __stack s = [] ∧
  names_of (events s) =
    [(EvOpen, "m1"); (EvOpen, "m2"); (EvOpened, "m1"); (EvOpened, "m2");
     (EvClose, "m2"); (EvClosed, "m2"); (EvClose, "m1"); (EvClosed, "m1")].
Proof. vm_compute. done. Qed.

Lemma or_default_idemp d v : or_default d (or_default d v) = or_default d v.
Proof. destruct v; try done. cbn. by destruct d. Qed.

Lemma open_missing id options s : dom s !! id = None → open id options s = (Normal, s).
Proof. intros H. unfold open. by rewrite H. Qed.

(** Everything [open] does to a state whose document has the container. *)
Lemma open_cases id options s b :
  dom s !! id = Some b →
  let m := meta_of options (activeElement s) in
  let h := mkHandler (next_closure s) id (m_backdropClose m) in
  ∃ c s' b',
    open id options s = (c, s') ∧
    __stack s' = __stack s ++ [id] ∧
    __meta s' = <[id := m]> (__meta s) ∧
    events s' = events s ++ [mkEvent EvOpen id (m_data m)] ∧
    dom s' !! id = Some b' ∧
    (∀ id', id' ≠ id → dom s' !! id' = dom s !! id') ∧
    ((c = Normal ∧
      timers s' = timers s ++ [mkTimer (TOpened id (m_focus m) (m_data m)) (m_duration m)] ∧
      body_overflow s' = "hidden" ∧
      b_listeners b' = b_listeners b ++ [h] ∧ b_handler b' = Some h ∧ b_open b' = true)
     ∨
     (c = Throw ∧ b_modal b = None ∧
      timers s' = timers s ∧ body_overflow s' = body_overflow s ∧
      b_listeners b' = b_listeners b ∧ b_handler b' = b_handler b)).
Proof.
  intros Hb m h. subst m h. unfold open, meta_of. rewrite Hb.
  destruct (decide (or_default (JNum __duration) (o_duration options) = JNum __duration)) as [Hq|Hq];
    [|destruct (b_modal b) as [ml|] eqn:Hml];
    (eexists _, _, _; split; [reflexivity|]; cbn;
     rewrite !lookup_alter_eq, Hb, ?or_default_idemp; cbn;
     repeat split; try done;
     [ intros id' Hne; by rewrite !lookup_alter_ne | ]).
  - left. done.
  - left. done.
  - right. done.
Qed.

Lemma __close_noop id p s :
dom s !! id = None ∨ __meta s !! id = None → __close id p s = s.
Proof.
intros [H|H]; unfold __close; rewrite H; [done|]. by destruct (dom s !! id).
Qed.

(** Everything [__close] does before its timer fires. *)
Lemma __close_cases id p s b m :
dom s !! id = Some b → __meta s !! id = Some m →
let s' := __close id p s in
__stack s' = __stack s ∧ __meta s' = __meta s ∧ __popped s' = __popped s ∧
events s' = events s ++ [mkEvent EvClose id (or_default JNull (m_data m))] ∧
timers s' = timers s ++ [mkTimer (TClosed id (m_opener m) (m_data m)) (m_duration m)] ∧
dom s' !! id = Some (bd_detach (bd_set_open false b)) ∧
(∀ id', id' ≠ id → dom s' !! id' = dom s !! id') ∧
body_overflow s' = (if Nat.eqb (length (__stack s)) 0 then "" else body_overflow s) ∧
hist_backs s' = (if p then hist_backs s else S (hist_backs s)).
Proof.
intros Hb Hm. unfold __close. rewrite Hb, Hm. cbn.
destruct (Nat.eqb (length (__stack s)) 0), p; cbn;
  rewrite !lookup_alter_eq, Hb; cbn;
  (repeat split; try done; intros id' Hne; by rewrite !lookup_alter_ne).
Qed.

Lemma __close_stack id p s : __stack (__close id p s) = __stack s.
Proof.
destruct (dom s !! id) as [b|] eqn:Hb; [|by rewrite __close_noop; auto].
destruct (__meta s !! id) as [m|] eqn:Hm; [|by rewrite __close_noop; auto].
apply (__close_cases id p s b m Hb Hm).
Qed.

Lemma __close_meta id p s : __meta (__close id p s) = __meta s.
Proof.
destruct (dom s !! id) as [b|] eqn:Hb; [|by rewrite __close_noop; auto].
destruct (__meta s !! id) as [m|] eqn:Hm; [|by rewrite __close_noop; auto].
apply (__close_cases id p s b m Hb Hm).
Qed.

Lemma __close_dom_ne id p s id' :
id' ≠ id → dom (__close id p s) !! id' = dom s !! id'.
Proof.
intros Hne.
destruct (dom s !! id) as [b|] eqn:Hb; [|by rewrite __close_noop; auto].
destruct (__meta s !! id) as [m|] eqn:Hm; [|by rewrite __close_noop; auto].
by apply (__close_cases id p s b m Hb Hm).
Qed.

(** ** Handlers built from [__close] *)

(** A property kept by [__close] and by a write to [__popped] is kept by
  every handler that only closes: [close], [closeTop], [closeAll],
  [getData], and the key, history and click listeners. *)
Section Closers.
Variable P : State → Prop.
Hypothesis P_close : ∀ id p s, P s → P (__close id p s).
Hypothesis P_popped : ∀ v s, P s → P (set_popped v s).

Lemma P_closeTop p s : P s → P (__closeTop p s).
Proof.
  intros H. unfold __closeTop. destruct (last (__stack s)); [|done].
  destruct (closable_not_false _); auto.
Qed.

Lemma P_closeAll s : P s → P (closeAll s).
Proof.
  unfold closeAll. generalize (reverse (__stack s)). intros l. revert s.
  induction l as [|id l IH]; intros s H; cbn; [done|].
  apply IH. by apply P_close.
Qed.

Lemma P_keydown key s : P s → P (keydown key s).
Proof.
  intros H. unfold keydown. destruct (_ && _); [|done]. by apply P_closeTop.
Qed.

Lemma P_popstate s : P s → P (popstate s).
Proof.
  intros H. unfold popstate. destruct (_ && _); [|done].
  apply P_popped. by apply P_closeTop.
Qed.

Lemma P_clickHandler h target s : P s → P (clickHandler h target s).
Proof.
  intros H. unfold clickHandler, close. destruct target; [|done].
  destruct (truthy _); auto.
Qed.

Lemma P_click id target s : P s → P (click id target s).
Proof.
  unfold click. generalize (listeners_of id s). intros l. revert s.
  induction l as [|h l IH]; intros s H; cbn; [done|].
  apply IH. case_bool_decide; [by apply P_clickHandler|done].
Qed.

Lemma P_closers a s : closes_only a → P s → P (snd (exec a s)).
Proof.
  destruct a; cbn; try done; intros _ H.
  - by apply P_close.
  - by apply P_closeTop.
  - by apply P_closeAll.
  - by apply P_keydown.
  - by apply P_popstate.
  - by apply P_click.
Qed.
End Closers.

(** ** Traces under a calling discipline *)

Section Invariant.
Variable allowed : Action → State → bool.
Variable P : State → Prop.
Hypothesis P_step : ∀ a s, allowed a s = true → P s → P (snd (exec a s)).

Lemma run_invariant tr s : disciplined allowed tr s = true → P s → P (run tr s).
Proof.
  revert s. induction tr as [|a tr IH]; intros s Hd H; cbn; [done|].
  cbn in Hd. apply andb_true_iff in Hd as [Ha Hd].
  apply IH; [done|]. by apply P_step.
Qed.
End Invariant.

Lemma run_app tr1 tr2 s : run (tr1 ++ tr2) s = run tr2 (run tr1 s).
Proof. apply fold_left_app. Qed.

(** ** [splice_first] *)

Lemma splice_first_notin id l : id ∉ l → splice_first id l = l.
Proof.
  induction l as [|x l IH]; cbn; [done|]. intros Hn.
  apply not_elem_of_cons in Hn as [Hx Hl].
  destruct (decide (x = id)); [congruence|]. by rewrite IH.
Qed.

Lemma splice_first_sublist id l : splice_first id l `sublist_of` l.
Proof.
  induction l as [|x l IH]; cbn; [done|].
  destruct (decide (x = id)); [by apply sublist_cons|by apply sublist_skip].
Qed.

Lemma splice_first_Permutation id l : id ∈ l → l ≡ₚ id :: splice_first id l.
Proof.
  induction l as [|x l IH]; cbn; [by intros ?%elem_of_nil|].
  intros Hin. destruct (decide (x = id)) as [->|Hne]; [done|].
  apply elem_of_cons in Hin as [?|Hin]; [congruence|].
  rewrite (IH Hin) at 1. apply Permutation_swap.
Qed.

Lemma elem_of_splice_first_ne id x l :
  x ≠ id → x ∈ splice_first id l ↔ x ∈ l.
Proof.
  intros Hne. induction l as [|y l IH]; cbn [splice_first]; [done|].
  destruct (decide (y = id)) as [->|Hy].
  - rewrite elem_of_cons. split; [auto|]. by intros [?|?].
  - by rewrite !elem_of_cons, IH.
Qed.

Lemma splice_first_filter_ne id l :
  filter (λ x, x ≠ id) (splice_first id l) = filter (λ x, x ≠ id) l.
Proof.
  induction l as [|y l IH]; cbn [splice_first]; [done|].
  destruct (decide (y = id)) as [->|Hy].
  - by rewrite filter_cons_False by (intros ?; done).
  - by rewrite !filter_cons_True, IH by done.
Qed.

Lemma NoDup_splice_first id l : NoDup l → NoDup (splice_first id l).
Proof. intros H. eapply sublist_NoDup; [done|apply splice_first_sublist]. Qed.

Lemma NoDup_splice_first_notin id l : NoDup l → id ∉ splice_first id l.
Proof.
  intros Hnd. destruct (decide (id ∈ l)) as [Hin|Hn].
  - pose proof (splice_first_Permutation id l Hin) as Hp.
    rewrite Hp in Hnd. by apply NoDup_cons in Hnd as [? _].
  - by rewrite splice_first_notin.
Qed.

(** ** The timer callbacks *)

Lemma on_opened_frame id focus data s :
  let s' := snd (on_opened id focus data s) in
  __stack s' = __stack s ∧ __meta s' = __meta s ∧ dom s' = dom s ∧
  timers s' = timers s ∧ body_overflow s' = body_overflow s ∧
  (events s' = events s ∨ events s' = events s ++ [mkEvent EvOpened id (or_default JNull data)]).
Proof.
  unfold on_opened. destruct (truthy focus); cbn; [|by auto 10].
  destruct (dom s !! id ≫= b_modal) as [ml|]; cbn; [|by auto 10].
  destruct (ml_autofocus ml); cbn; [by auto 10|].
  destruct (ml_focusable ml); cbn; by auto 10.
Qed.

Lemma on_closed_frame id opener data s :
  let s' := on_closed id opener data s in
  __stack s' = splice_first id (__stack s) ∧ __meta s' = delete id (__meta s) ∧
  dom s' = dom s ∧ timers s' = timers s ∧ body_overflow s' = body_overflow s ∧
  events s' = events s ++ [mkEvent EvClosed id (or_default JNull data)].
Proof.
  unfold on_closed. destruct opener; cbn; [|done].
  destruct (Nat.eqb _ 0); cbn; done.
Qed.

Lemma closers_stack_meta a s :
  closes_only a → __stack (snd (exec a s)) = __stack s ∧ __meta (snd (exec a s)) = __meta s.
Proof.
  intros Ha.
  apply (P_closers (λ s', __stack s' = __stack s ∧ __meta s' = __meta s)); try done.
  intros id p s' [Hs Hm]. by rewrite __close_stack, __close_meta.
Qed.

Lemma exec_sm_step a s : sm_step a s (snd (exec a s)).
Proof.
  destruct a as [id options| | | | | | | |n];
    try (apply sm_same; by apply closers_stack_meta).
  - cbn. destruct (dom s !! id) as [b|] eqn:Hb.
    + destruct (open_cases id options s b Hb) as (c & s' & b' & -> & Hs & Hm & _).
      by eapply sm_open.
    + rewrite open_missing by done. by apply sm_same.
  - cbn. unfold fire. destruct (timers s !! n) as [[t delay]|] eqn:Ht; [|by apply sm_same].
    destruct t as [id focus data|id opener data]; cbn.
    + pose proof (on_opened_frame id focus data (set_timers (delete n) s)) as (Hs & Hm & _).
      by apply sm_same.
    + pose proof (on_closed_frame id opener data (set_timers (delete n) s)) as (Hs & Hm & _).
      by eapply sm_closed.
Qed.

(** * Stack and metadata table *)

Lemma consistent_step a s :
  no_reopen a s = true → consistent s → consistent (snd (exec a s)).
Proof.
  intros Ha [Hnd Hiff].
  destruct (exec_sm_step a s) as [Hs Hm|id options -> _ Hs Hm|n id opener data delay _ _ Hs Hm];
    unfold consistent; rewrite Hs, Hm.
  - done.
  - apply bool_decide_eq_true in Ha. split.
    + apply NoDup_app. split_and!; [done| |apply NoDup_singleton].
      intros x Hx ->%list_elem_of_singleton. done.
    + intros x. rewrite elem_of_app, list_elem_of_singleton, lookup_insert_is_Some, Hiff.
      destruct (decide (id = x)) as [->|Hne]; [split; auto|].
      split; [intros [?|?]; [right; by split|congruence]|intros [?|[_ ?]]; [congruence|by left]].
  - split; [by apply NoDup_splice_first|].
    intros x. destruct (decide (x = id)) as [->|Hne].
    + rewrite lookup_delete_eq. split; [|by intros []].
      intros Hin. by apply NoDup_splice_first_notin in Hin.
    + by rewrite elem_of_splice_first_ne, lookup_delete_ne, Hiff.
Qed.

Lemma consistent_size s : consistent s → length (__stack s) = size (__meta s).
Proof.
  intros [Hnd Hiff].
  rewrite <- (size_dom (D := gset string)), <- (size_list_to_set (C := gset string)) by done.
  f_equal. apply set_eq. intros x.
  by rewrite elem_of_list_to_set, elem_of_dom, Hiff.
Qed.

Lemma consistent_initial page focused : consistent (initial page focused).
Proof.
  split; cbn; [apply NoDup_nil_2|].
  intros id. rewrite lookup_empty. split; [by intros ?%elem_of_nil|by intros []].
Qed.

(** C1, as the code has it: along every sequence of turns of the event
    loop in which no id is opened while it is still on the stack, the
    stack has no duplicate, an id is on the stack exactly when the
    metadata table has an entry for it, and the stack is as long as the
    table has entries. *)
Theorem stack_meta_one_to_one tr page focused :
  disciplined no_reopen tr (initial page focused) = true →
  let s := run tr (initial page focused) in
  NoDup (__stack s) ∧ (∀ id, id ∈ __stack s ↔ is_Some (__meta s !! id)) ∧
  length (__stack s) = size (__meta s).
Proof.
  intros Hd s.
  assert (Hc : consistent s).
  { apply (run_invariant no_reopen consistent consistent_step); [done|].
    apply consistent_initial. }
  split_and!; [apply Hc|apply Hc|by apply consistent_size].
Qed.

Lemma stack_meta_one_to_one_witness :
  let s := run stack_meta_trace (initial demo_page (Some 1)) in
  NoDup (__stack s) ∧ (∀ id, id ∈ __stack s ↔ is_Some (__meta s !! id)) ∧
  length (__stack s) = size (__meta s).
Proof.
  apply (stack_meta_one_to_one stack_meta_trace demo_page (Some 1)).
  vm_compute. reflexivity.
Defined.

(** C1 as stated fails: a second [open] of an id that is already open
    pushes it again and overwrites its one table entry. *)
Lemma reopen_breaks_one_to_one :
  let s := run [AOpen "m1" no_options; AOpen "m1" no_options] demo in
  ¬ (length (__stack s) = size (__meta s)).
Proof. vm_compute. discriminate. Qed.





(** * Background scroll *)

Lemma meta_in_stack_step a s : meta_in_stack s → meta_in_stack (snd (exec a s)).
Proof.
  intros H.
  destruct (exec_sm_step a s) as [Hs Hm|id options -> _ Hs Hm|n id opener data delay _ _ Hs Hm];
    unfold meta_in_stack; rewrite Hs, Hm; [done| |].
  - intros x. rewrite elem_of_app, list_elem_of_singleton, lookup_insert_is_Some.
    intros [?|[_ ?]]; [by right|left; by apply H].
  - intros x Hx. apply lookup_delete_is_Some in Hx as [Hne Hx].
    apply elem_of_splice_first_ne; [done|]. by apply H.
Qed.



(** C3 at a concrete page: one modal is opened and then closed, and every
    timer has fired. The stack is empty again, yet the body's overflow is
    still "hidden": the test [__stack.length === 0] of [__close] runs
    while the id is still on the stack. *)
Theorem scroll_not_restored_after_last_close :
  let s := run [AOpen "m1" no_options; AFire 0; AClose "m1"; AFire 0] demo in
  __stack s = [] ∧ timers s = [] ∧ body_overflow s = "hidden".
Proof. vm_compute. done. Qed.

(** * Missing targets *)



(** * Frame *)

(** C10: for [Y ≠ X], neither [close X], nor the timer callback that
    completes it, nor [open X] changes the metadata entry of [Y]. [close X]
    leaves the stack alone; its callback removes one [X] and keeps the
    other entries in their order; [open X] keeps every entry at its
    position and adds at the end. *)
Theorem open_close_frame X Y options opener data s :
  Y ≠ X →
  (__meta (close X s) !! Y = __meta s !! Y ∧ __stack (close X s) = __stack s) ∧
  (let s' := on_closed X opener data s in
   __meta s' !! Y = __meta s !! Y ∧
   filter (λ x, x ≠ X) (__stack s') = filter (λ x, x ≠ X) (__stack s) ∧
   __stack s' `sublist_of` __stack s) ∧
  (let s' := snd (open X options s) in
   __meta s' !! Y = __meta s !! Y ∧ __stack s `prefix_of` __stack s' ∧
   ∀ i, __stack s !! i = Some Y → __stack s' !! i = Some Y).
Proof.
  intros Hne. split_and!.
  - unfold close. by rewrite __close_meta.
  - apply __close_stack.
  - destruct (on_closed_frame X opener data s) as (Hs & Hm & _).
    cbv zeta. rewrite Hs, Hm. split_and!.
    + by apply lookup_delete_ne.
    + apply splice_first_filter_ne.
    + apply splice_first_sublist.
  - cbv zeta. destruct (dom s !! X) as [b|] eqn:Hb.
    + destruct (open_cases X options s b Hb) as (c & s' & b' & -> & Hs & Hm & _).
      cbn [snd]. rewrite Hs, Hm. split_and!.
      * by apply lookup_insert_ne.
      * by apply prefix_app_r.
      * intros i Hi. by apply lookup_app_l_Some.
    + rewrite open_missing by done. cbn [snd]. done.
Qed.

Lemma open_close_frame_witness :
  let s := run [AOpen "m1" no_options; AOpen "m2" no_options] demo in
  (__meta (close "m1" s) !! "m2" = __meta s !! "m2" ∧ __stack (close "m1" s) = __stack s) ∧
  (let s' := on_closed "m1" (Some 1) JNull s in
   __meta s' !! "m2" = __meta s !! "m2" ∧
   filter (λ x, x ≠ "m1") (__stack s') = filter (λ x, x ≠ "m1") (__stack s) ∧
   __stack s' `sublist_of` __stack s) ∧
  (let s' := snd (open "m1" no_options s) in
   __meta s' !! "m2" = __meta s !! "m2" ∧ __stack s `prefix_of` __stack s' ∧
   ∀ i, __stack s !! i = Some "m2" → __stack s' !! i = Some "m2").
Proof.
  intros s.
  apply (open_close_frame "m1" "m2" no_options (Some 1) JNull s).
  discriminate.
Defined.

(** * closeTop and the Escape key *)




(** * getData *)







(** * Backdrop clicks *)

Lemma fully_closed_spec id s :
  fully_closed id s = true → __meta s !! id = None ∧ ¬ pending_closed id s.
Proof.
  unfold fully_closed. destruct (__meta s !! id); [done|].
  intros Hn%negb_true_iff. split; [done|].
  intros (t & opener & data & Hin & Ht).
  assert (existsb (is_closed_of id) (timers s) = true); [|congruence].
  apply existsb_exists. exists t. split; [by apply list_elem_of_In|].
  unfold is_closed_of. rewrite Ht. by apply bool_decide_eq_true.
Qed.

Lemma pending_closed_snoc id s s' t :
  timers s' = timers s ++ [t] →
  (∀ opener data, t_task t ≠ TClosed id opener data) →
  pending_closed id s' → pending_closed id s.
Proof.
  intros Ht Hne (t' & opener & data & Hin & Ht').
  rewrite Ht, elem_of_app, list_elem_of_singleton in Hin.
  destruct Hin as [Hin| ->]; [by exists t', opener, data|].
  by destruct (Hne opener data).
Qed.

Lemma pending_closed_delete id n s s' :
  timers s' = delete n (timers s) → pending_closed id s' → pending_closed id s.
Proof.
  intros Ht (t & opener & data & Hin & Ht'). exists t, opener, data. split; [|done].
  rewrite Ht in Hin. by eapply list_elem_of_delete_inv.
Qed.

Lemma bd_detach_clean b :
  b_listeners b = registered b →
  b_listeners (bd_detach (bd_set_open false b)) = [] ∧
  b_handler (bd_detach (bd_set_open false b)) = None.
Proof.
  unfold registered, bd_detach, bd_set_open. cbn [b_handler b_listeners].
  destruct (b_handler b) as [h|] eqn:Hh; cbn [b_handler b_listeners]; intros Hl.
  - split; [|done]. rewrite Hl.
    by rewrite filter_cons_False, filter_nil by (intros Hx; by apply Hx).
  - done.
Qed.

Lemma handlers_ok_close id p s : handlers_ok s → handlers_ok (__close id p s).
Proof.
  intros H.
  destruct (dom s !! id) as [b|] eqn:Hb; [|by rewrite __close_noop; auto].
  destruct (__meta s !! id) as [m|] eqn:Hm; [|by rewrite __close_noop; auto].
  destruct (__close_cases id p s b m Hb Hm) as (_ & Hmeta & _ & _ & Ht & Hd & Hdne & _).
  intros id0 b0 Hb0. destruct (decide (id0 = id)) as [->|Hne].
  - rewrite Hd in Hb0. injection Hb0 as <-.
    destruct (H id b Hb) as [Hl _].
    destruct (bd_detach_clean b Hl) as [Hl' Hh']. unfold registered.
    rewrite Hl', Hh'. done.
  - rewrite Hdne in Hb0 by done. destruct (H id0 b0 Hb0) as [Hl Hh].
    split; [done|]. intros h Hh0. destruct (Hh h Hh0) as (Hid & Hp & Hm0).
    split_and!; [done| |by rewrite Hmeta].
    intros Hp'. apply Hp. eapply pending_closed_snoc; [exact Ht| |exact Hp'].
    cbn. congruence.
Qed.

Lemma handlers_ok_step a s :
  open_when_closed a s = true → handlers_ok s → handlers_ok (snd (exec a s)).
Proof.
  intros Ha H.
  destruct a as [id options| | | | | | | |n];
    try (by apply (P_closers handlers_ok handlers_ok_close (λ _ _ H, H)));
    cbn [exec].
  - cbn in Ha. apply fully_closed_spec in Ha as [Hm Hp].
    destruct (dom s !! id) as [b|] eqn:Hb; [|by rewrite open_missing].
    destruct (H id b Hb) as [Hl Hh].
    assert (Hnone : b_handler b = None).
    { destruct (b_handler b) as [h|]; [|done].
      destruct (Hh h eq_refl) as (_ & _ & m & Hm' & _). congruence. }
    unfold registered in Hl. rewrite Hnone in Hl.
    destruct (open_cases id options s b Hb)
      as (c & s' & b' & -> & _ & Hmeta & _ & Hd & Hdne & Hc).
    cbn [snd]. intros id0 b0 Hb0. destruct (decide (id0 = id)) as [->|Hne].
    + rewrite Hd in Hb0. injection Hb0 as <-.
      destruct Hc as [(_ & Ht & _ & Hl' & Hh' & _)|(_ & _ & Ht & _ & Hl' & Hh')].
      * unfold registered. rewrite Hl', Hh', Hl. split; [done|]. intros h [= <-]. split_and!; [done| |].
        -- intros Hp'. apply Hp. eapply pending_closed_snoc; [exact Ht| |exact Hp']. done.
        -- eexists. split; [by rewrite Hmeta, lookup_insert_eq|done].
      * unfold registered. rewrite Hl', Hh', Hl, Hnone. done.
    + rewrite Hdne in Hb0 by done. destruct (H id0 b0 Hb0) as [Hl0 Hh0].
      split; [done|]. intros h Hh1. destruct (Hh0 h Hh1) as (Hid & Hp0 & Hm0).
      split_and!; [done| |by rewrite Hmeta, lookup_insert_ne].
      intros Hp'. apply Hp0.
      destruct Hc as [(_ & Ht & _)|(_ & _ & Ht & _)].
      * eapply pending_closed_snoc; [exact Ht| |exact Hp']. done.
      * destruct Hp' as (t & o & d & Hin & Ht'). exists t, o, d. by rewrite <- Ht.
  - unfold fire. destruct (timers s !! n) as [[t delay]|] eqn:Hn; [|done].
    destruct t as [id focus data|id opener data]; cbn [run_task t_task snd].
    + destruct (on_opened_frame id focus data (set_timers (delete n) s))
        as (_ & Hmeta & Hd & Ht & _).
      intros id0 b0 Hb0. rewrite Hd in Hb0. destruct (H id0 b0 Hb0) as [Hl0 Hh0].
      split; [done|]. intros h Hh1. destruct (Hh0 h Hh1) as (Hid & Hp0 & Hm0).
      split_and!; [done| |by rewrite Hmeta].
      intros Hp'. apply Hp0. eapply pending_closed_delete; [exact Ht|exact Hp'].
    + destruct (on_closed_frame id opener data (set_timers (delete n) s))
        as (_ & Hmeta & Hd & Ht & _).
      intros id0 b0 Hb0. rewrite Hd in Hb0. destruct (H id0 b0 Hb0) as [Hl0 Hh0].
      split; [done|]. intros h Hh1. destruct (Hh0 h Hh1) as (Hid & Hp0 & Hm0).
      destruct (decide (id0 = id)) as [->|Hne].
      { destruct Hp0. exists (mkTimer (TClosed id opener data) delay), opener, data.
        split; [|done].
        eapply list_elem_of_lookup_2. exact Hn. }
      split_and!; [done| |by rewrite Hmeta; cbn; rewrite lookup_delete_ne].
      intros Hp'. apply Hp0. eapply pending_closed_delete; [exact Ht|exact Hp'].
Qed.

Lemma handlers_ok_initial page focused : handlers_ok (initial page focused).
Proof.
  intros id b. cbn. rewrite lookup_fmap.
  destruct (page !! id); cbn; [|done]. by intros [= <-].
Qed.

Lemma click_inside id s : click id InsideModal s = s.
Proof.
  unfold click. generalize (listeners_of id s). intros l. revert s.
  induction l as [|h l IH]; intros s; cbn; [done|].
  destruct (bool_decide _); apply IH.
Qed.

Lemma click_single id target s h :
  listeners_of id s = [h] → click id target s = clickHandler h target s.
Proof.
  intros Hl. unfold click. rewrite Hl. cbn. rewrite Hl.
  by rewrite bool_decide_eq_true_2 by (by left).
Qed.

Lemma click_none id target s : listeners_of id s = [] → click id target s = s.
Proof. intros Hl. unfold click. by rewrite Hl. Qed.

Lemma handlers_ok_listeners id s :
  handlers_ok s →
  listeners_of id s = [] ∨
  ∃ h m, listeners_of id s = [h] ∧ h_id h = id ∧ ¬ pending_closed id s ∧
         __meta s !! id = Some m ∧ m_backdropClose m = h_backdropClose h.
Proof.
  intros H. unfold listeners_of.
  destruct (dom s !! id) as [b|] eqn:Hb; cbn; [|by left].
  destruct (H id b Hb) as [Hl Hh]. rewrite Hl. unfold registered.
  destruct (b_handler b) as [h|]; cbn; [|by left].
  destruct (Hh h eq_refl) as (Hid & Hp & m & Hm & Hbc).
  right. by exists h, m.
Qed.

Lemma close_detaches id s : handlers_ok s → listeners_of id (close id s) = [].
Proof.
  intros H. unfold close, listeners_of.
  destruct (dom s !! id) as [b|] eqn:Hb; [|by rewrite __close_noop, Hb by auto].
  destruct (__meta s !! id) as [m|] eqn:Hm.
  - destruct (__close_cases id false s b m Hb Hm) as (_ & _ & _ & _ & _ & -> & _).
    cbn [from_option]. apply bd_detach_clean. apply (H id b Hb).
  - rewrite __close_noop by auto.
    destruct (handlers_ok_listeners id s H) as [Hl|(h & m & _ & _ & _ & Hm' & _)];
      [done|congruence].
Qed.

(** C9, as the code has it: along every sequence of turns in which an id
    is opened only when it is fully closed, a click inside the content of
    a modal changes nothing; a click on the container changes nothing or
    is [close id], and changes nothing when the stored [backdropClose] is
    falsy; a container whose id has no metadata entry, or whose close is in
    flight, has no click listener; [close id] leaves the container without
    listener, and an [open id] that completes leaves it with exactly one,
    which carries the [backdropClose] given to that [open]. *)
Theorem backdrop_click_spec tr page focused id :
  disciplined open_when_closed tr (initial page focused) = true →
  let s := run tr (initial page focused) in
  click id InsideModal s = s ∧
  (click id OnBackdrop s = s ∨ click id OnBackdrop s = close id s) ∧
  (∀ m, __meta s !! id = Some m → truthy (m_backdropClose m) = false →
     click id OnBackdrop s = s) ∧
  (__meta s !! id = None → listeners_of id s = []) ∧
  (pending_closed id s → listeners_of id s = []) ∧
  listeners_of id (close id s) = [] ∧
  (∀ options s',
     fully_closed id s = true → is_Some (dom s !! id) →
     open id options s = (Normal, s') →
     ∃ h, listeners_of id s' = [h] ∧ h_id h = id ∧
          h_backdropClose h = or_default (JBool true) (o_backdropClose options)).
Proof.
  intros Hd s.
  assert (H : handlers_ok s).
  { apply (run_invariant open_when_closed handlers_ok handlers_ok_step); [done|].
    apply handlers_ok_initial. }
  clearbody s. clear Hd.
  pose proof (handlers_ok_listeners id s H) as Hcases.
  split_and!.
  - apply click_inside.
  - destruct Hcases as [Hl|(h & m & Hl & Hid & _)].
    + left. by apply click_none.
    + rewrite (click_single id OnBackdrop s h Hl). cbn. rewrite Hid.
      destruct (truthy _); auto.
  - intros m Hm Hf. destruct Hcases as [Hl|(h & m' & Hl & Hid & _ & Hm' & Hbc)].
    + by apply click_none.
    + rewrite (click_single id OnBackdrop s h Hl). cbn.
      replace m' with m in Hbc by congruence. by rewrite <- Hbc, Hf.
  - intros Hm. destruct Hcases as [Hl|(h & m & _ & _ & _ & Hm' & _)]; [done|congruence].
  - intros Hp. destruct Hcases as [Hl|(h & m & _ & _ & Hp' & _)]; [done|by destruct Hp'].
  - by apply close_detaches.
  - intros options s' [Hm _]%fully_closed_spec [b Hb] Ho.
    destruct (open_cases id options s b Hb)
      as (c & s1 & b' & Ho' & _ & _ & _ & Hd' & _ & Hc).
    rewrite Ho in Ho'. injection Ho' as <- <-.
    destruct Hc as [(_ & _ & _ & Hl' & _)|(? & _)]; [|done].
    eexists. unfold listeners_of. rewrite Hd'. cbn [from_option]. rewrite Hl'.
    destruct Hcases as [Hl|(h & m & _ & _ & _ & Hm' & _)]; [|congruence].
    unfold listeners_of in Hl. rewrite Hb in Hl. cbn in Hl. rewrite Hl. done.
Qed.

Lemma backdrop_click_spec_witness :
  let s := run click_trace (initial demo_page (Some 1)) in
  click "m1" InsideModal s = s ∧
  (click "m1" OnBackdrop s = s ∨ click "m1" OnBackdrop s = close "m1" s) ∧
  (∀ m, __meta s !! "m1" = Some m → truthy (m_backdropClose m) = false →
     click "m1" OnBackdrop s = s) ∧
  (__meta s !! "m1" = None → listeners_of "m1" s = []) ∧
  (pending_closed "m1" s → listeners_of "m1" s = []) ∧
  listeners_of "m1" (close "m1" s) = [] ∧
  (∀ options s',
     fully_closed "m1" s = true → is_Some (dom s !! "m1") →
     open "m1" options s = (Normal, s') →
     ∃ h, listeners_of "m1" s' = [h] ∧ h_id h = "m1" ∧
          h_backdropClose h = or_default (JBool true) (o_backdropClose options)).
Proof.
  apply (backdrop_click_spec click_trace demo_page (Some 1) "m1").
  vm_compute. reflexivity.
Defined.

(** C9 as stated fails once an id is opened while it is open: the listener
    of the first [open] stays on the container. It closes the modal on a
    backdrop click although the stored [backdropClose] is [false], and it
    is still registered after the modal has closed. *)
Lemma reopened_backdrop_keeps_old_listener :
  let o_false := mkOptions JUndefined JUndefined (JBool false) JUndefined JUndefined in
  let s := run [AOpen "m1" no_options; AOpen "m1" o_false] demo in
  let s2 := run [AClose "m1"; AFire 0; AFire 0; AFire 0] s in
  (m_backdropClose <$> __meta s !! "m1") = Some (JBool false) ∧
  names_of (events (click "m1" OnBackdrop s)) = names_of (events s) ++ [(EvClose, "m1")] ∧
  __meta s2 !! "m1" = None ∧ timers s2 = [] ∧ listeners_of "m1" s2 ≠ [].
Proof. vm_compute. split_and!; done. Qed.

(** * Order of the events of one modal *)














(** * closeAll *)

Lemma __close_dom_is_Some id p s x :
  is_Some (dom s !! x) → is_Some (dom (__close id p s) !! x).
Proof.
  intros Hx. destruct (decide (x = id)) as [->|Hne]; [|by rewrite __close_dom_ne].
  destruct Hx as [b Hb].
  destruct (__meta s !! id) as [m|] eqn:Hm; [|rewrite __close_noop by auto; by rewrite Hb].
  destruct (__close_cases id p s b m Hb Hm) as (_ & _ & _ & _ & _ & -> & _). done.
Qed.




Lemma fire_timers n s : timers (snd (fire n s)) = delete n (timers s).
Proof.
  unfold fire. destruct (timers s !! n) as [[t delay]|] eqn:Hn.
  - destruct t as [id focus data|id opener data]; cbn [run_task t_task snd].
    + by destruct (on_opened_frame id focus data (set_timers (delete n) s))
        as (_ & _ & _ & -> & _).
    + by destruct (on_closed_frame id opener data (set_timers (delete n) s))
        as (_ & _ & _ & -> & _).
  - cbn. symmetry. apply lookup_ge_None in Hn.
    rewrite delete_take_drop, take_ge, drop_ge by lia. apply app_nil_r.
Qed.














(** * Further properties of [src/index.js] *)

(** The fields of the page that [open] writes besides the stack, the table,
    the log and the timers. *)
Lemma open_fields id options s b :
  dom s !! id = Some b →
  let duration := or_default (JNum __duration) (o_duration options) in
  let s' := snd (open id options s) in
  activeElement s' = activeElement s ∧
  hist_pushes s' = S (hist_pushes s) ∧ hist_backs s' = hist_backs s ∧
  __popped s' = false ∧ __transitioning s' = true ∧
  (fst (open id options s) = Throw ↔ b_modal b = None ∧ duration ≠ JNum __duration) ∧
  ∃ b', dom s' !! id = Some b' ∧
        b_zIndex b' = Some (__zIndex + Z.of_nat (S (length (__stack s))))%Z ∧
        (fst (open id options s) = Throw → b_open b' = b_open b).
Proof.
  intros Hb duration s'. subst duration s'. unfold open. rewrite Hb.
  destruct (decide (or_default (JNum __duration) (o_duration options) = JNum __duration)) as [Hq|Hq];
    [|destruct (b_modal b) as [ml|] eqn:Hml];
    cbn; rewrite !lookup_alter_eq, Hb; cbn;
    rewrite length_app, Nat.add_comm; cbn;
    split_and!; try done;
    try (eexists; split_and!; [reflexivity|done|done]).
  - split; [done|]. by intros [_ ?].
  - split; [done|]. by intros [? _].
Qed.

Lemma __close_fields id p s b m :
  dom s !! id = Some b → __meta s !! id = Some m →
  let s' := __close id p s in
  activeElement s' = activeElement s ∧ hist_pushes s' = hist_pushes s ∧
  __transitioning s' = true ∧ next_closure s' = next_closure s.
Proof.
  intros Hb Hm. unfold __close. rewrite Hb, Hm. cbn.
  by destruct (Nat.eqb (length (__stack s)) 0), p.
Qed.

Lemma on_opened_fields id focus data s :
  let cs := on_opened id focus data s in
  __transitioning (snd cs) = false ∧ __popped (snd cs) = __popped s ∧
  hist_pushes (snd cs) = hist_pushes s ∧ hist_backs (snd cs) = hist_backs s ∧
  (fst cs = Throw ↔ truthy focus = true ∧ dom s !! id ≫= b_modal = None) ∧
  (fst cs = Throw → events (snd cs) = events s ∧ activeElement (snd cs) = activeElement s) ∧
  (fst cs = Normal →
     events (snd cs) = events s ++ [mkEvent EvOpened id (or_default JNull data)]).
Proof.
  unfold on_opened. destruct (truthy focus); cbn.
  - destruct (dom s !! id ≫= b_modal) as [ml|]; cbn.
    + destruct (ml_autofocus ml); [|destruct (ml_focusable ml)]; cbn;
        (split_and!; try done; split; [done|by intros [_ ?]]).
    + split_and!; try done.
  - split_and!; try done. split; [done|by intros [? _]].
Qed.

Lemma on_closed_fields id opener data s :
  let s' := on_closed id opener data s in
  __transitioning s' = false ∧ __popped s' = __popped s ∧
  hist_pushes s' = hist_pushes s ∧ hist_backs s' = hist_backs s ∧
  activeElement s' =
    match opener with
    | Some e => if Nat.eqb (length (splice_first id (__stack s))) 0
                then Some e else activeElement s
    | None => activeElement s
    end.
Proof.
  unfold on_closed. destruct opener; cbn; [|done].
  by destruct (Nat.eqb _ 0).
Qed.

(** A field of the state that [__close] leaves alone is left alone by the
    handlers that only call [__close]. *)
Section CloseFrame.
Context {A : Type} (f : State → A).
Hypothesis f_close : ∀ id p s, f (__close id p s) = f s.

Lemma frame_closeTop p s : f (__closeTop p s) = f s.
Proof.
  unfold __closeTop. destruct (last (__stack s)); [|done].
  destruct (closable_not_false _); [apply f_close|done].
Qed.

Lemma frame_closeAll s : f (closeAll s) = f s.
Proof.
  unfold closeAll. generalize (reverse (__stack s)). intros l. revert s.
  induction l as [|id l IH]; intros s; cbn; [done|].
  rewrite IH. apply f_close.
Qed.

Lemma frame_keydown key s : f (keydown key s) = f s.
Proof. unfold keydown. destruct (_ && _); [apply frame_closeTop|done]. Qed.

Lemma frame_click id target s : f (click id target s) = f s.
Proof.
  unfold click. generalize (listeners_of id s). intros l. revert s.
  induction l as [|h l IH]; intros s; cbn; [done|].
  rewrite IH. case_bool_decide; [|done].
  unfold clickHandler, close. destruct target; [|done].
  destruct (truthy _); [apply f_close|done].
Qed.
End CloseFrame.

Lemma __close_popped id p s : __popped (__close id p s) = __popped s.
Proof.
  destruct (dom s !! id) as [b|] eqn:Hb; [|by rewrite __close_noop; auto].
  destruct (__meta s !! id) as [m|] eqn:Hm; [|by rewrite __close_noop; auto].
  apply (__close_cases id p s b m Hb Hm).
Qed.

Lemma set_popped_same s : set_popped (__popped s) s = s.
Proof. by destruct s. Qed.

Lemma popstate_popped s : __popped (popstate s) = __popped s.
Proof.
  unfold popstate. destruct (__popped s) eqn:Hp; cbn; [done|].
  destruct (Nat.eqb (length (__stack s)) 0) eqn:Hl; cbn; [done|].
  by rewrite (frame_closeTop __stack __close_stack), Hl.
Qed.

Lemma popped_step a s : __popped s = false → __popped (snd (exec a s)) = false.
Proof.
  intros Hp. destruct a as [id options|id| | |id|key| |id target|n]; cbn [exec snd].
  - destruct (dom s !! id) as [b|] eqn:Hb; [|by rewrite open_missing].
    apply (open_fields id options s b Hb).
  - unfold close. by rewrite __close_popped.
  - unfold closeTop. by rewrite (frame_closeTop __popped __close_popped).
  - by rewrite (frame_closeAll __popped __close_popped).
  - done.
  - by rewrite (frame_keydown __popped __close_popped).
  - by rewrite popstate_popped.
  - by rewrite (frame_click __popped __close_popped).
  - unfold fire. destruct (timers s !! n) as [[t delay]|]; [|done].
    destruct t as [id focus data|id opener data]; cbn [run_task t_task snd].
    + by destruct (on_opened_fields id focus data (set_timers (delete n) s)) as (_ & -> & _).
    + by destruct (on_closed_fields id opener data (set_timers (delete n) s)) as (_ & -> & _).
Qed.

Lemma popped_reachable tr page focused : __popped (run tr (initial page focused)) = false.
Proof.
  apply (run_invariant (λ _ _, true) (λ s, __popped s = false)).
  - intros a s _. apply popped_step.
  - generalize (initial page focused). induction tr as [|a tr IH]; intros s; cbn; [done|apply IH].
  - done.
Qed.

(** X1: [__popped] is never true. [open] clears it, and the [popstate]
    listener assigns it [__stack.length == 0] right after [__closeTop],
    which leaves the stack as it found it, not empty. *)
Theorem popped_never_set tr page focused :
  __popped (run tr (initial page focused)) = false ∧
  ∀ s, __popped (popstate s) = __popped s.
Proof. split; [apply popped_reachable|apply popstate_popped]. Qed.

Lemma __close_true_hist id s :
  hist_backs (__close id true s) = hist_backs s ∧
  hist_pushes (__close id true s) = hist_pushes s.
Proof.
  destruct (dom s !! id) as [b|] eqn:Hb; [|by rewrite __close_noop; auto].
  destruct (__meta s !! id) as [m|] eqn:Hm; [|by rewrite __close_noop; auto].
  destruct (__close_cases id true s b m Hb Hm) as (_ & _ & _ & _ & _ & _ & _ & _ & ->).
  by destruct (__close_fields id true s b m Hb Hm) as (_ & -> & _).
Qed.

Lemma popstate_hist s :
  hist_backs (popstate s) = hist_backs s ∧ hist_pushes (popstate s) = hist_pushes s.
Proof.
  unfold popstate. destruct (_ && _); [|done]. cbn.
  unfold __closeTop. destruct (last (__stack s)); [|done].
  destruct (closable_not_false _); [apply __close_true_hist|done].
Qed.

(** X2: on every state a sequence of turns leads to from a fresh page,
    the [popstate] listener is [__closeTop(true)]: it closes the top
    modal under the same condition as the Escape key, does nothing on an
    empty stack, and calls neither [history.back] nor
    [history.pushState]. *)
Theorem popstate_is_closeTop tr page focused :
  let s := run tr (initial page focused) in
  popstate s = __closeTop true s ∧
  (__stack s = [] → popstate s = s) ∧
  hist_backs (popstate s) = hist_backs s ∧
  hist_pushes (popstate s) = hist_pushes s.
Proof.
  intros s. pose proof (popped_reachable tr page focused) as Hp. fold s in Hp.
  clearbody s.
  assert (Heq : popstate s = __closeTop true s).
  { unfold popstate. rewrite Hp. cbn.
    destruct (Nat.eqb (length (__stack s)) 0) eqn:Hl; cbn.
    - unfold __closeTop. by destruct (__stack s).
    - rewrite (frame_closeTop __stack __close_stack), Hl.
      rewrite <- (frame_closeTop __popped __close_popped true s) in Hp.
      rewrite <- Hp. apply set_popped_same. }
  split_and!; [done| |apply popstate_hist|apply popstate_hist].
  intros Hs. rewrite Heq. unfold __closeTop. by rewrite Hs.
Qed.

Lemma popstate_is_closeTop_witness :
  let s := run [AOpen "m1" no_options; AFire 0; AClose "m1"; AFire 0] demo in
  popstate s = s.
Proof.
  apply (popstate_is_closeTop [AOpen "m1" no_options; AFire 0; AClose "m1"; AFire 0]
           demo_page (Some 1)).
  vm_compute. reflexivity.
Defined.

Lemma any_turn_disciplined tr s : disciplined any_turn tr s = true.
Proof. revert s. induction tr as [|a tr IH]; intros s; cbn; [done|apply IH]. Qed.


(** A property kept by [close] is kept by the handlers that close on
    behalf of the page, not of the history. *)
Section Closes.
Variable P : State → Prop.
Hypothesis P_close : ∀ id s, P s → P (close id s).




End Closes.

Lemma history_close id p s :
  let s' := __close id p s in
  __close id p s = s ∨
  (hist_pushes s' = hist_pushes s ∧
   hist_backs s' = (if p then hist_backs s else S (hist_backs s)) ∧
   ∃ e, events s' = events s ++ [e] ∧ ev_name e = EvClose ∧ ev_data e ≠ JUndefined).
Proof.
  destruct (dom s !! id) as [b|] eqn:Hb; [|left; by rewrite __close_noop; auto].
  destruct (__meta s !! id) as [m|] eqn:Hm; [|left; by rewrite __close_noop; auto].
  right.
  destruct (__close_cases id p s b m Hb Hm) as (_ & _ & _ & He & _ & _ & _ & _ & Hh).
  destruct (__close_fields id p s b m Hb Hm) as (_ & Hp & _).
  split_and!; [done|done|]. eexists. split_and!; [exact He|done|].
  cbn. by destruct (m_data m).
Qed.

Lemma history_open id options s :
  let s' := snd (open id options s) in
  s' = s ∨
  (hist_pushes s' = S (hist_pushes s) ∧ hist_backs s' = hist_backs s ∧
   ∃ e, events s' = events s ++ [e] ∧ ev_name e = EvOpen ∧ ev_data e ≠ JUndefined).
Proof.
  destruct (dom s !! id) as [b|] eqn:Hb; [|left; by rewrite open_missing].
  right. destruct (open_fields id options s b Hb) as (_ & Hp & Hbk & _).
  destruct (open_cases id options s b Hb) as (c & s' & b' & Ho & _ & _ & He & _).
  rewrite Ho in *. cbn [snd] in *. split_and!; [done|done|].
  eexists. split_and!; [exact He|done|]. cbn. by destruct (o_data options).
Qed.

Lemma history_fire n s :
  let s' := snd (fire n s) in
  hist_pushes s' = hist_pushes s ∧ hist_backs s' = hist_backs s ∧
  (events s' = events s ∨
   ∃ e, events s' = events s ++ [e] ∧ ev_name e ≠ EvOpen ∧ ev_name e ≠ EvClose ∧
        ev_data e ≠ JUndefined).
Proof.
  unfold fire. destruct (timers s !! n) as [[t delay]|]; [|by auto].
  destruct t as [id focus data|id opener data]; cbn [run_task t_task snd].
  - destruct (on_opened_fields id focus data (set_timers (delete n) s))
      as (_ & _ & Hp & Hb & _ & Ht & Hn).
    split_and!; [done|done|].
    destruct (fst (on_opened id focus data (set_timers (delete n) s))).
    + right. eexists. split_and!; [by apply Hn|done|done|]. cbn. by destruct data.
    + left. by apply Ht.
  - destruct (on_closed_fields id opener data (set_timers (delete n) s))
      as (_ & _ & Hp & Hb & _).
    destruct (on_closed_frame id opener data (set_timers (delete n) s))
      as (_ & _ & _ & _ & _ & He).
    split_and!; [done|done|]. right. eexists. split_and!; [exact He|done|done|].
    cbn. by destruct data.
Qed.







(** X4: the transition flag is one bit for the whole page. Every [open]
    of an id with a container and every [__close] that takes effect sets
    it; whichever timer fires next clears it, whatever else is still
    pending, and the Escape key works again from then on. *)
Theorem transition_flag :
  (∀ id options s, is_Some (dom s !! id) →
     __transitioning (snd (open id options s)) = true) ∧
  (∀ id p s, is_Some (dom s !! id) → is_Some (__meta s !! id) →
     __transitioning (__close id p s) = true) ∧
  (∀ n s, is_Some (timers s !! n) →
     let s' := snd (fire n s) in
     __transitioning s' = false ∧ keydown "Escape" s' = closeTop s').
Proof.
  split_and!.
  - intros id options s [b Hb]. apply (open_fields id options s b Hb).
  - intros id p s [b Hb] [m Hm]. apply (__close_fields id p s b m Hb Hm).
  - intros n s [[t delay] Hn] s'.
    assert (Ht : __transitioning s' = false).
    { subst s'. unfold fire. rewrite Hn.
      destruct t as [id focus data|id opener data]; cbn [run_task t_task snd].
      - apply on_opened_fields.
      - apply on_closed_fields. }
    split; [done|]. unfold keydown. by rewrite Ht.
Qed.

Lemma transition_flag_witness :
  let s := run [AOpen "m1" no_options; AOpen "m2" no_options] demo in
  let s' := snd (fire 0 s) in
  __transitioning (snd (open "m1" no_options demo)) = true ∧
  __transitioning s' = false ∧ keydown "Escape" s' = closeTop s' ∧
  length (timers s') = 1.
Proof.
  destruct transition_flag as (Ho & _ & Hf).
  split; [apply Ho; vm_compute; eauto|].
  destruct (Hf 0 (run [AOpen "m1" no_options; AOpen "m2" no_options] demo)) as [H1 H2];
    [vm_compute; eauto|].
  split_and!; [exact H1|exact H2|vm_compute; reflexivity].
Defined.

Lemma data_defined_close id p s : data_defined s → data_defined (__close id p s).
Proof.
  intros H. destruct (history_close id p s) as [->|(_ & _ & e & He & _ & Hd)]; [done|].
  intros e'. rewrite He, elem_of_app, list_elem_of_singleton.
  intros [?| ->]; [by apply H|done].
Qed.

(** X5: no event carries [undefined]. From a fresh page, after any
    sequence of turns, the data of every dispatched event is a value other
    than [undefined]: [open] and [dispatch] both default it to [null]. *)
Theorem event_data_defined tr page focused e :
  e ∈ events (run tr (initial page focused)) → ev_data e ≠ JUndefined.
Proof.
  revert e. change (data_defined (run tr (initial page focused))).
  apply (run_invariant any_turn data_defined); [|apply any_turn_disciplined|].
  - intros a s _ H. destruct a as [id options| | | | | | | |n];
      try (by apply (P_closers data_defined data_defined_close (λ _ _ H, H)));
      cbn [exec].
    + destruct (history_open id options s) as [->|(_ & _ & e & He & _ & Hd)]; [done|].
      intros e'. rewrite He, elem_of_app, list_elem_of_singleton.
      intros [?| ->]; [by apply H|done].
    + destruct (history_fire n s) as (_ & _ & [He|(e & He & _ & _ & Hd)]);
        intros e'; rewrite He; [by apply H|].
      rewrite elem_of_app, list_elem_of_singleton. intros [?| ->]; [by apply H|done].
  - by intros e ?%elem_of_nil.
Qed.

Lemma event_data_defined_witness :
  ev_data (mkEvent EvOpen "m1" JNull) ≠ JUndefined.
Proof.
  apply (event_data_defined [AOpen "m1" no_options] demo_page (Some 1)).
  vm_compute. by left.
Defined.



(** X7: the timer callback of [open] fails exactly when focusing is on
    (the default) and the container has no [.modal] child. It has cleared
    the transition flag by then, but the opened event is not dispatched
    and the focus does not move. *)
Theorem opened_callback_throws n s id focus data delay :
  timers s !! n = Some (mkTimer (TOpened id focus data) delay) →
  let cs := fire n s in
  (fst cs = Throw ↔ truthy focus = true ∧ dom s !! id ≫= b_modal = None) ∧
  __transitioning (snd cs) = false ∧
  timers (snd cs) = delete n (timers s) ∧
  (fst cs = Throw →
     events (snd cs) = events s ∧ activeElement (snd cs) = activeElement s) ∧
  (fst cs = Normal →
     events (snd cs) = events s ++ [mkEvent EvOpened id (or_default JNull data)]).
Proof.
  intros Hn cs. pose proof (fire_timers n s) as Ht. subst cs.
  unfold fire in *. rewrite Hn in *. cbn [run_task t_task] in *.
  destruct (on_opened_fields id focus data (set_timers (delete n) s))
    as (Htr & _ & _ & _ & Hiff & Hth & Hno).
  split_and!; done.
Qed.

Lemma opened_callback_throws_witness :
  let s := snd (open "m0" no_options (initial bare_page None)) in
  fst (fire 0 s) = Throw ∧ events (snd (fire 0 s)) = events s.
Proof.
  intros s.
  destruct (opened_callback_throws 0 s "m0" (JBool true) JNull (JNum 300))
    as (Hiff & _ & _ & Hth & _); [reflexivity|].
  assert (Ht : fst (fire 0 s) = Throw) by (apply Hiff; split; reflexivity).
  split; [exact Ht|]. by apply Hth.
Defined.

(** X8: [close] is not idempotent while the timer is pending. A second
    [close] of the same id before the first timer fires passes the guard
    again: the close event is dispatched twice, two timers are set and
    [history.back] is called twice, while the stack and the table still
    hold the id. *)
Theorem close_twice id s b m :
  dom s !! id = Some b → __meta s !! id = Some m →
  let s2 := close id (close id s) in
  let e := mkEvent EvClose id (or_default JNull (m_data m)) in
  let t := mkTimer (TClosed id (m_opener m) (m_data m)) (m_duration m) in
  events s2 = events s ++ [e; e] ∧ timers s2 = timers s ++ [t; t] ∧
  hist_backs s2 = S (S (hist_backs s)) ∧
  __stack s2 = __stack s ∧ __meta s2 = __meta s.
Proof.
  intros Hb Hm. unfold close.
  destruct (__close_cases id false s b m Hb Hm)
    as (Hs & Hmeta & _ & He & Ht & Hd & _ & _ & Hh).
  assert (Hm1 : __meta (__close id false s) !! id = Some m) by (by rewrite Hmeta).
  destruct (__close_cases id false _ _ m Hd Hm1)
    as (Hs' & Hmeta' & _ & He' & Ht' & _ & _ & _ & Hh').
  cbv zeta. rewrite He', He, Ht', Ht, Hh', Hh, Hs', Hs, Hmeta', Hmeta, <- !app_assoc.
  done.
Qed.

Lemma close_twice_witness :
  let s := run [AOpen "m1" no_options; AFire 0] demo in
  names_of (events (close "m1" (close "m1" s))) =
    names_of (events s) ++ [(EvClose, "m1"); (EvClose, "m1")].
Proof.
  intros s.
  destruct (close_twice "m1" s
              (mkBackdrop true (Some 1001%Z) None (Some (mkModalEl None [7] None))
                 [mkHandler 0 "m1" (JBool true)] (Some (mkHandler 0 "m1" (JBool true))))
              (mkMeta (JBool true) (JBool true) (JBool true) (Some 1) (JNum 300) JNull))
    as (He & _); [reflexivity|reflexivity|].
  rewrite He. unfold names_of. by rewrite map_app.
Defined.




(** X10: a modal that is opened on an empty stack and closed again gives
    the focus back. With no timer pending and the element [e] focused,
    [open], its timer, [close] and its timer leave [e] focused, the stack
    empty and the table without the id; this holds whether or not the
    open or its callback failed. *)
Theorem focus_round_trip id options s b e :
  dom s !! id = Some b → __stack s = [] → timers s = [] →
  activeElement s = Some e →
  let s' := run [AOpen id options; AFire 0; AClose id; AFire 0] s in
  activeElement s' = Some e ∧ __stack s' = [] ∧ __meta s' !! id = None ∧
  timers s' = [].
Proof.
  intros Hb Hst Htm Hact. cbn [run fold_left exec snd].
  destruct (open_cases id options s b Hb)
    as (c & s1 & b1 & Ho & Hs1 & Hm1 & _ & Hd1 & _ & Hc).
  rewrite Ho. cbn [snd].
  rewrite Hst in Hs1. cbn in Hs1. rewrite Hact in Hm1.
  assert (∃ s2, snd (fire 0 s1) = s2 ∧ __stack s2 = [id] ∧ __meta s2 = __meta s1 ∧
                dom s2 = dom s1 ∧ timers s2 = []) as (s2 & -> & Hs2 & Hm2 & Hd2 & Ht2).
  { destruct Hc as [(_ & Ht & _)|(_ & _ & Ht & _)]; rewrite Htm in Ht; cbn in Ht.
    - eexists. split; [reflexivity|]. unfold fire. rewrite Ht. cbn [lookup list_lookup run_task t_task].
      match goal with
      | |- context [on_opened ?i ?f ?d ?st] =>
          destruct (on_opened_frame i f d st) as (Hs & Hm & Hd & Htt & _)
      end.
      rewrite Hs, Hm, Hd, Htt. cbn. by rewrite Ht.
    - exists s1. unfold fire. rewrite Ht. done. }
  rewrite <- Hd2 in Hd1. rewrite Hm1 in Hm2.
  assert (Hm2' : __meta s2 !! id = Some (meta_of options (Some e)))
    by (by rewrite Hm2, lookup_insert_eq).
  unfold close.
  destruct (__close_cases id false s2 b1 _ Hd1 Hm2') as (Hs3 & Hm3 & _ & _ & Ht3 & _).
  set (s3 := __close id false s2) in *. clearbody s3.
  rewrite Ht2 in Ht3. cbn in Ht3.
  unfold fire. rewrite Ht3. cbn [lookup list_lookup run_task t_task snd].
  destruct (on_closed_frame id (Some e) (or_default JNull (o_data options))
              (set_timers (delete 0) s3)) as (Hs4 & Hm4 & _ & Ht4 & _).
  destruct (on_closed_fields id (Some e) (or_default JNull (o_data options))
              (set_timers (delete 0) s3)) as (_ & _ & _ & _ & Ha4).
  cbn [__stack __meta timers set_timers] in Hs4, Hm4, Ht4, Ha4.
  rewrite Hs3, Hs2 in Hs4, Ha4. cbn in Hs4, Ha4.
  rewrite decide_True in Hs4, Ha4 by done. cbn in Ha4.
  split_and!; [done|done| |by rewrite Ht4, Ht3].
  rewrite Hm4. apply lookup_delete_eq.
Qed.

Lemma focus_round_trip_witness :
  let s' := run [AOpen "m2" no_options; AFire 0; AClose "m2"; AFire 0] demo in
  activeElement s' = Some 1 ∧ __stack s' = [] ∧ __meta s' !! "m2" = None ∧
  timers s' = [].
Proof.
  apply (focus_round_trip "m2" no_options demo
           (mkBackdrop false None None (Some (mkModalEl (Some 9) [8; 9] None)) [] None) 1);
    reflexivity.
Defined.

Lemma meta_in_stack_reachable tr page focused :
  meta_in_stack (run tr (initial page focused)).
Proof.
  apply (run_invariant any_turn meta_in_stack); [|apply any_turn_disciplined|].
  - intros a s _. apply meta_in_stack_step.
  - intros id. cbn. rewrite lookup_empty. by intros [].
Qed.

(** X11: the table never outlives the stack. From a fresh page, after any
    sequence of turns, with no condition on how [open] and [close] are
    called, an id that has a metadata entry is on the stack. *)
Theorem table_within_stack tr page focused id :
  is_Some (__meta (run tr (initial page focused)) !! id) →
  id ∈ __stack (run tr (initial page focused)).
Proof. apply meta_in_stack_reachable. Qed.

Lemma table_within_stack_witness :
  "m1" ∈ __stack (run [AOpen "m1" no_options; AOpen "m1" no_options; AClose "m1"] demo).
Proof.
  apply (table_within_stack [AOpen "m1" no_options; AOpen "m1" no_options; AClose "m1"]
           demo_page (Some 1) "m1").
  vm_compute. eauto.
Defined.



Lemma stack_in_dom_close id p s : stack_in_dom s → stack_in_dom (__close id p s).
Proof.
  intros H x. rewrite __close_stack. intros Hx. by apply __close_dom_is_Some, H.
Qed.

(** X13: only ids with a container get on the stack. From a fresh page,
    after any sequence of turns, every id on the stack names a container
    of the document. *)
Theorem stack_ids_have_containers tr page focused id :
  id ∈ __stack (run tr (initial page focused)) →
  is_Some (dom (run tr (initial page focused)) !! id).
Proof.
  revert id. change (stack_in_dom (run tr (initial page focused))).
  apply (run_invariant any_turn stack_in_dom); [|apply any_turn_disciplined|].
  - intros a s _ H. destruct a as [id options| | | | | | | |n];
      try (by apply (P_closers stack_in_dom stack_in_dom_close (λ _ _ H, H)));
      cbn [exec].
    + destruct (dom s !! id) as [b|] eqn:Hb; [|by rewrite open_missing].
      destruct (open_cases id options s b Hb)
        as (c & s' & b' & -> & Hs & _ & _ & Hd & Hdne & _).
      cbn [snd]. intros x. rewrite Hs, elem_of_app, list_elem_of_singleton.
      destruct (decide (x = id)) as [->|Hne]; [by rewrite Hd|].
      rewrite Hdne by done. intros [?|?]; [by apply H|done].
    + unfold fire. destruct (timers s !! n) as [[t delay]|]; [|done].
      destruct t as [id focus data|id opener data]; cbn [run_task t_task snd].
      * destruct (on_opened_frame id focus data (set_timers (delete n) s))
          as (Hs & _ & Hd & _).
        intros x. rewrite Hs, Hd. apply H.
      * destruct (on_closed_frame id opener data (set_timers (delete n) s))
          as (Hs & _ & Hd & _).
        intros x. rewrite Hs, Hd. cbn [__stack dom set_timers]. intros Hx. apply H.
        eapply elem_of_sublist; [exact Hx|apply splice_first_sublist].
  - by intros id ?%elem_of_nil.
Qed.

Lemma stack_ids_have_containers_witness :
  is_Some (dom (run [AOpen "nope" no_options; AOpen "m2" no_options] demo) !! "m2").
Proof.
  apply (stack_ids_have_containers [AOpen "nope" no_options; AOpen "m2" no_options]
           demo_page (Some 1) "m2").
  vm_compute. by left.
Defined.

(** X14: a modal opened right after another lies one layer above it.
    [open] gives the container the z-index 1000 plus the length of the
    stack the id has just been pushed on, so two opens in a row, of two
    ids with containers, give the second one the z-index of the first
    plus one. *)
Theorem zIndex_stacks id1 id2 options1 options2 s :
  id1 ≠ id2 → is_Some (dom s !! id1) → is_Some (dom s !! id2) →
  let s1 := snd (open id1 options1 s) in
  let s2 := snd (open id2 options2 s1) in
  zIndex_of id1 s1 = Some (1001 + Z.of_nat (length (__stack s)))%Z ∧
  zIndex_of id1 s2 = Some (1001 + Z.of_nat (length (__stack s)))%Z ∧
  zIndex_of id2 s2 = Some (1002 + Z.of_nat (length (__stack s)))%Z.
Proof.
  intros Hne [b1 Hb1] [b2 Hb2] s1 s2. subst s1 s2.
  destruct (open_fields id1 options1 s b1 Hb1) as (_ & _ & _ & _ & _ & _ & b1' & Hd1 & Hz1 & _).
  destruct (open_cases id1 options1 s b1 Hb1)
    as (c & s1 & b1'' & Ho1 & Hs1 & _ & _ & _ & Hdne1 & _).
  rewrite Ho1 in *. cbn [snd] in *.
  assert (Hb2' : dom s1 !! id2 = Some b2) by (rewrite Hdne1; done).
  destruct (open_fields id2 options2 s1 b2 Hb2') as (_ & _ & _ & _ & _ & _ & b2' & Hd2 & Hz2 & _).
  destruct (open_cases id2 options2 s1 b2 Hb2')
    as (c2 & s2 & b2'' & Ho2 & _ & _ & _ & _ & Hdne2 & _).
  rewrite Ho2 in *. cbn [snd] in *.
  unfold zIndex_of. rewrite Hdne2, Hd1, Hd2 by done. cbn.
  rewrite Hz1, Hz2, Hs1, length_app. cbn. unfold __zIndex.
  split_and!; f_equal; lia.
Qed.

Lemma zIndex_stacks_witness :
  let s1 := snd (open "m1" no_options demo) in
  let s2 := snd (open "m2" no_options s1) in
  zIndex_of "m1" s1 = Some 1001%Z ∧ zIndex_of "m1" s2 = Some 1001%Z ∧
  zIndex_of "m2" s2 = Some 1002%Z.
Proof.
  apply (zIndex_stacks "m1" "m2" no_options no_options demo);
    [discriminate|vm_compute; eauto|vm_compute; eauto].
Defined.

(** * The earlier version, [src/unnamed/part_000] *)

Lemma open_000_missing id options s :
  dom s !! id = None → Part000.open id options s = (Normal, s).
Proof. intros H. unfold Part000.open. by rewrite H. Qed.

Lemma open_000_cases id options s b :
  dom s !! id = Some b →
  let m := meta_of_000 options (activeElement s) in
  ∃ c s' b',
    Part000.open id options s = (c, s') ∧
    __stack s' = __stack s ++ [id] ∧
    __meta s' = <[id := m]> (__meta s) ∧
    events s' = events s ++ [mkEvent EvOpen id (m_data m)] ∧
    dom s' !! id = Some b' ∧
    (∀ id', id' ≠ id → dom s' !! id' = dom s !! id') ∧
    (is_Some (b_modal b) → is_Some (b_modal b')) ∧
    ((c = Normal ∧
      timers s' = timers s ++ [mkTimer (TOpened id (or_default (JBool true) (o_focus options)) (m_data m)) (m_duration m)] ∧
      body_overflow s' = "hidden")
     ∨
     (c = Throw ∧ b_modal b = None ∧
      timers s' = timers s ∧ body_overflow s' = body_overflow s)).
Proof.
  intros Hb m. subst m. unfold Part000.open, meta_of_000. rewrite Hb.
  destruct (decide (or_default (JNum __duration) (o_duration options) = JNum __duration)) as [Hq|Hq];
    [|destruct (b_modal b) as [ml|] eqn:Hml];
    (eexists _, _, _; split; [reflexivity|]; cbn;
     rewrite !lookup_alter_eq, Hb, ?or_default_idemp; cbn;
     split_and!; try done;
     try (intros id' Hne; by rewrite !lookup_alter_ne);
     try (intros _; cbn; rewrite Hml; cbn; by eauto);
     try (by left); try (by right)).
Qed.

Lemma close_000_noop id s :
  dom s !! id = None ∨ __meta s !! id = None → Part000.close id s = s.
Proof.
  intros [H|H]; unfold Part000.close; rewrite H; [done|]. by destruct (dom s !! id).
Qed.

Lemma close_000_cases id s b m :
  dom s !! id = Some b → __meta s !! id = Some m →
  let s' := Part000.close id s in
  __stack s' = splice_first id (__stack s) ∧ __meta s' = __meta s ∧
  events s' = events s ++ [mkEvent EvClose id (or_default JNull (m_data m))] ∧
  timers s' = timers s ++ [mkTimer (TClosed id (m_opener m) (m_data m)) (m_duration m)] ∧
  dom s' !! id = Some (bd_detach (bd_set_open false b)) ∧
  (∀ id', id' ≠ id → dom s' !! id' = dom s !! id') ∧
  body_overflow s' =
    (if Nat.eqb (length (splice_first id (__stack s))) 0 then "" else body_overflow s).
Proof.
  intros Hb Hm. unfold Part000.close. rewrite Hb, Hm. cbn.
  destruct (Nat.eqb (length (splice_first id (__stack s))) 0); cbn;
    rewrite !lookup_alter_eq, Hb; cbn;
    (split_and!; try done; intros id' Hne; by rewrite !lookup_alter_ne).
Qed.

Lemma fire_000_frame n s :
  let s' := snd (Part000.fire n s) in
  __stack s' = __stack s ∧ dom s' = dom s ∧ body_overflow s' = body_overflow s.
Proof.
  unfold Part000.fire. destruct (timers s !! n) as [[t delay]|]; [|done].
  destruct t as [id focus data|id opener data]; cbn.
  - unfold Part000.on_opened. destruct (truthy focus); cbn; [|done].
    destruct (dom s !! id ≫= b_modal) as [ml|]; cbn; [|done].
    destruct (ml_autofocus ml); [|destruct (ml_focusable ml)]; done.
  - unfold Part000.on_closed. destruct opener; cbn; [|done].
    by destruct (Nat.eqb _ 0).
Qed.

(** A property kept by the earlier [close] is kept by the handlers built
    from it. *)
Section Closes000.
Variable P : State → Prop.
Hypothesis P_close : ∀ id s, P s → P (Part000.close id s).

Lemma closes_000_closeAll s : P s → P (Part000.closeAll s).
Proof.
  unfold Part000.closeAll. generalize (reverse (__stack s)). intros l. revert s.
  induction l as [|id l IH]; intros s H; cbn; [done|].
  apply IH. by apply P_close.
Qed.

Lemma closes_000_keydown key s : P s → P (Part000.keydown key s).
Proof.
  intros H. unfold Part000.keydown. destruct (_ && _); [|done].
  destruct (last (__stack s)); [|done].
  destruct (closable_not_false _); [by apply P_close|done].
Qed.

Lemma closes_000_click id target s : P s → P (Part000.click id target s).
Proof.
  unfold Part000.click. generalize (listeners_of id s). intros l. revert s.
  induction l as [|h l IH]; intros s H; cbn; [done|].
  apply IH. case_bool_decide; [|done].
  unfold Part000.clickHandler. destruct target; [|done].
  destruct (truthy _); [by apply P_close|done].
Qed.
End Closes000.

Lemma bd_detach_modal b : b_modal (bd_detach (bd_set_open false b)) = b_modal b.
Proof. unfold bd_detach. cbn. by destruct (b_handler b). Qed.

Lemma tracked_close_000 id s : tracked s → tracked (Part000.close id s).
Proof.
  intros [Hmod [Hne Hem]].
  destruct (dom s !! id) as [b|] eqn:Hb; [|by rewrite close_000_noop; auto].
  destruct (__meta s !! id) as [m|] eqn:Hm; [|by rewrite close_000_noop; auto].
  destruct (close_000_cases id s b m Hb Hm) as (Hs & _ & _ & _ & Hd & Hdne & Hov).
  split.
  - intros x bx Hx. destruct (decide (x = id)) as [->|Hx'].
    + rewrite Hd in Hx. injection Hx as <-. rewrite bd_detach_modal. by eapply Hmod.
    + rewrite Hdne in Hx by done. by eapply Hmod.
  - unfold scroll_tracks_stack. rewrite Hs, Hov.
    destruct (splice_first id (__stack s)) as [|y l] eqn:Hsp; cbn; [done|].
    split; [|done]. intros _. apply Hne. intros Hnil. by rewrite Hnil in Hsp.
Qed.

Lemma tracked_step_000 a s : tracked s → tracked (snd (Part000.exec a s)).
Proof.
  intros H. destruct a as [id options|id| |key|id target|n]; cbn [Part000.exec snd].
  - destruct H as [Hmod [Hne Hem]].
    destruct (dom s !! id) as [b|] eqn:Hb; [|by rewrite open_000_missing].
    destruct (open_000_cases id options s b Hb)
      as (c & s' & b' & -> & Hs & _ & _ & Hd & Hdne & Hml & Hc).
    cbn [snd]. split.
    + intros x bx Hx. destruct (decide (x = id)) as [->|Hx'].
      * rewrite Hd in Hx. injection Hx as <-. by eapply Hml, Hmod.
      * rewrite Hdne in Hx by done. by eapply Hmod.
    + destruct Hc as [(_ & _ & Hov)|(_ & Hnone & _)].
      * unfold scroll_tracks_stack. rewrite Hs, Hov. split; [done|].
        intros Hnil. by destruct (__stack s).
      * destruct (Hmod id b Hb) as [ml Hsome]. congruence.
  - by apply tracked_close_000.
  - by apply (closes_000_closeAll tracked tracked_close_000).
  - by apply (closes_000_keydown tracked tracked_close_000).
  - by apply (closes_000_click tracked tracked_close_000).
  - destruct (fire_000_frame n s) as (Hs & Hd & Hov). destruct H as [Hmod Htr].
    unfold tracked, modal_everywhere, scroll_tracks_stack. by rewrite Hs, Hd, Hov.
Qed.

(** X15: in the earlier version the background scroll follows the stack.
    On a page whose containers all have a [.modal] child, after any
    sequence of turns the body's overflow is "hidden" when the stack is
    not empty and "" when it is empty: there [close] removes the id from
    the stack before it tests the length. *)
Theorem scroll_follows_stack_000 tr page focused :
  page_with_modals page →
  let s := Part000.run tr (initial page focused) in
  (__stack s ≠ [] → body_overflow s = "hidden") ∧
  (__stack s = [] → body_overflow s = "").
Proof.
  intros Hpage s.
  assert (H : tracked s); [|apply H].
  subst s. assert (H0 : tracked (initial page focused)).
  { split; [|done]. intros id b. cbn. rewrite lookup_fmap.
    destruct (page !! id) as [m|] eqn:Hm; cbn; [|done].
    intros [= <-]. cbn. by eapply Hpage. }
  revert H0. generalize (initial page focused).
  induction tr as [|a tr IH]; intros s H; cbn; [done|].
  apply IH. by apply tracked_step_000.
Qed.

Lemma scroll_follows_stack_000_witness :
  let s := Part000.run [Part000.AOpen "m1" no_options; Part000.AFire 0;
                        Part000.AClose "m1"; Part000.AFire 0] demo in
  (__stack s ≠ [] → body_overflow s = "hidden") ∧
  (__stack s = [] → body_overflow s = "").
Proof.
  apply (scroll_follows_stack_000 _ demo_page (Some 1)).
  intros id m. unfold demo_page.
  rewrite lookup_insert. case_decide; [intros [= <-]; eauto|].
  rewrite lookup_insert. case_decide; [intros [= <-]; eauto|].
  by rewrite lookup_empty.
Defined.

Lemma fold_splice_all l st :
  NoDup st → (∀ x, x ∈ st → x ∈ l) →
  fold_left (λ st id, splice_first id st) l st = [].
Proof.
  revert st. induction l as [|id l IH]; intros st Hnd Hin; cbn.
  - destruct st as [|x st]; [done|]. exfalso. apply (not_elem_of_nil x), Hin. by left.
  - apply IH; [by apply NoDup_splice_first|].
    intros x Hx. destruct (decide (x = id)) as [->|Hne].
    + by apply NoDup_splice_first_notin in Hx.
    + apply elem_of_splice_first_ne in Hx; [|done].
      specialize (Hin x Hx). apply elem_of_cons in Hin as [?|?]; [done|done].
Qed.

(** Closing the ids of [l] one after the other in the earlier version. *)
Lemma close_each_000 l s :
  (∀ id, id ∈ l → is_Some (dom s !! id) ∧ is_Some (__meta s !! id)) →
  let s1 := fold_left (λ s id, Part000.close id s) l s in
  __stack s1 = fold_left (λ st id, splice_first id st) l (__stack s) ∧
  __meta s1 = __meta s ∧
  (∀ x, is_Some (dom s !! x) → is_Some (dom s1 !! x)) ∧
  (∃ evs, events s1 = events s ++ evs ∧ names_of evs = close_names l) ∧
  (l ≠ [] → __stack s1 = [] → body_overflow s1 = "").
Proof.
  induction l as [|id l IH] using rev_ind; intros Hl.
  { cbn. split_and!; try done. exists []. by rewrite app_nil_r. }
  cbv zeta. rewrite !fold_left_app. cbn [fold_left].
  destruct IH as (Hs & Hm & Hd & (evs & Hev & Hn) & _).
  { intros x Hx. apply Hl. apply elem_of_app. by left. }
  set (s' := fold_left (λ s id, Part000.close id s) l s) in *. clearbody s'.
  destruct (Hl id) as [[b0 Hb0] [m Hmid]]; [apply elem_of_app; right; by left|].
  destruct (Hd id (ex_intro _ b0 Hb0)) as [b Hb].
  rewrite <- Hm in Hmid.
  destruct (close_000_cases id s' b m Hb Hmid) as (Hs1 & Hm1 & He1 & _ & Hd1 & Hdne1 & Hov1).
  split_and!.
  - by rewrite Hs1, Hs.
  - by rewrite Hm1.
  - intros x Hx. destruct (decide (x = id)) as [->|Hne]; [by rewrite Hd1|].
    rewrite Hdne1 by done. by apply Hd.
  - exists (evs ++ [mkEvent EvClose id (or_default JNull (m_data m))]). split.
    + by rewrite He1, Hev, <- app_assoc.
    + unfold names_of, close_names in *. by rewrite map_app, fmap_app, Hn.
  - intros _ Hnil. rewrite Hov1. rewrite <- Hs1, Hnil. done.
Qed.

(** X16: in the earlier version [closeAll] takes effect at once. On a
    stack without duplicate whose ids all have a container and a metadata
    entry, it dispatches one close event per id, topmost first, and
    returns with the stack empty and, if there was a modal to close, the
    background scroll restored; the metadata entries stay until the timers
    fire. *)
Theorem closeAll_000_is_immediate s :
  NoDup (__stack s) →
  (∀ id, id ∈ __stack s → is_Some (dom s !! id) ∧ is_Some (__meta s !! id)) →
  let s1 := Part000.closeAll s in
  __stack s1 = [] ∧ __meta s1 = __meta s ∧
  names_of (drop (length (events s)) (events s1)) = close_names (reverse (__stack s)) ∧
  (__stack s ≠ [] → body_overflow s1 = "").
Proof.
  intros Hnd Hall. unfold Part000.closeAll.
  destruct (close_each_000 (reverse (__stack s)) s) as (Hs & Hm & _ & (evs & Hev & Hn) & Hov).
  { intros id Hin. rewrite elem_of_reverse in Hin. by apply Hall. }
  cbv zeta.
  assert (Hnil : fold_left (λ st id, splice_first id st) (reverse (__stack s)) (__stack s) = []).
  { apply fold_splice_all; [done|]. intros x Hx. by rewrite elem_of_reverse. }
  rewrite Hnil in Hs. split_and!; [done|done| |].
  - by rewrite Hev, drop_app_length.
  - intros Hne. apply Hov; [|done]. intros Hr. apply Hne.
    by rewrite <- (reverse_involutive (__stack s)), Hr.
Qed.

Lemma closeAll_000_is_immediate_witness :
  let s := Part000.run [Part000.AOpen "m1" no_options; Part000.AOpen "m2" no_options] demo in
  let s1 := Part000.closeAll s in
  __stack s1 = [] ∧ __meta s1 = __meta s ∧
  names_of (drop (length (events s)) (events s1)) = close_names (reverse (__stack s)) ∧
  (__stack s ≠ [] → body_overflow s1 = "").
Proof.
  intros s. apply (closeAll_000_is_immediate s).
  - vm_compute. apply NoDup_cons. split; [|apply NoDup_singleton].
    by intros ?%list_elem_of_singleton.
  - assert (Hs : __stack s = ["m1"; "m2"]) by (vm_compute; reflexivity).
    intros id Hin. rewrite Hs in Hin.
    apply elem_of_cons in Hin as [->|Hin]; [split; vm_compute; eauto|].
    apply list_elem_of_singleton in Hin as ->. split; vm_compute; eauto.
Defined.



(** X18: in the earlier version a closing modal is off the stack at once
    but keeps its metadata until the timer fires. After [close] of an id
    with a container and a metadata entry, on a stack without duplicate,
    the id is not on the stack, [getData] still returns what it returned
    before, and a second [close] dispatches the close event again. *)
Theorem closing_keeps_metadata_000 id s b m :
  dom s !! id = Some b → __meta s !! id = Some m → NoDup (__stack s) →
  let s1 := Part000.close id s in
  (id ∉ __stack s1) ∧ __meta s1 !! id = Some m ∧
  fst (Part000.getData id s1) = fst (Part000.getData id s) ∧
  names_of (events (Part000.close id s1)) =
    names_of (events s) ++ [(EvClose, id); (EvClose, id)].
Proof.
  intros Hb Hm Hnd.
  destruct (close_000_cases id s b m Hb Hm) as (Hs & Hmeta & He & _ & Hd & _).
  cbv zeta. split_and!.
  - rewrite Hs. by apply NoDup_splice_first_notin.
  - by rewrite Hmeta.
  - unfold Part000.getData. cbn [fst]. by rewrite Hmeta.
  - assert (Hm1 : __meta (Part000.close id s) !! id = Some m) by (by rewrite Hmeta).
    destruct (close_000_cases id _ _ m Hd Hm1) as (_ & _ & He' & _).
    rewrite He', He. unfold names_of. by rewrite !map_app, <- app_assoc.
Qed.

Lemma closing_keeps_metadata_000_witness :
  let s := Part000.run [Part000.AOpen "m1" no_options; Part000.AFire 0] demo in
  ("m1" ∉ __stack (Part000.close "m1" s)) ∧
  is_Some (__meta (Part000.close "m1" s) !! "m1").
Proof.
  intros s.
  destruct (closing_keeps_metadata_000 "m1" s
              (mkBackdrop true (Some 1001%Z) None (Some (mkModalEl None [7] None))
                 [mkHandler 0 "m1" (JBool true)] (Some (mkHandler 0 "m1" (JBool true))))
              (mkMeta JUndefined (JBool true) (JBool true) (Some 1) (JNum 300) JNull))
    as (H1 & H2 & _); [reflexivity|reflexivity| |].
  - vm_compute. apply NoDup_singleton.
  - split; [exact H1|]. rewrite H2. eauto.
Defined.

(** X19: a second Escape during the transition is ignored. When no
    transition is in progress and the top of the stack has a container, a
    metadata entry and a [closable] other than [false], the Escape key
    dispatches the close event of the top id and starts its transition;
    any key pressed before a timer fires then changes nothing. *)
Theorem escape_debounced s l top b m key :
  __stack s = l ++ [top] → dom s !! top = Some b → __meta s !! top = Some m →
  m_closable m ≠ JBool false → __transitioning s = false →
  let s1 := keydown "Escape" s in
  events s1 = events s ++ [mkEvent EvClose top (or_default JNull (m_data m))] ∧
  __stack s1 = __stack s ∧
  keydown key s1 = s1.
Proof.
  intros Hs Hb Hm Hc Ht.
  assert (Hk : keydown "Escape" s = __close top false s).
  { unfold keydown, closeTop, __closeTop. rewrite Ht, Hs, last_snoc, Hm. cbn.
    by rewrite !bool_decide_eq_true_2 by done. }
  cbv zeta. rewrite Hk.
  destruct (__close_cases top false s b m Hb Hm) as (Hs1 & _ & _ & He & _).
  destruct (__close_fields top false s b m Hb Hm) as (_ & _ & Htr & _).
  split_and!; [done|done|]. unfold keydown. by rewrite Htr.
Qed.

Lemma escape_debounced_witness :
  let s := run [AOpen "m1" no_options; AOpen "m2" no_options; AFire 0; AFire 0] demo in
  let s1 := keydown "Escape" s in
  names_of (events s1) = names_of (events s) ++ [(EvClose, "m2")] ∧
  keydown "Escape" s1 = s1.
Proof.
  intros s.
  destruct (escape_debounced s ["m1"] "m2"
              (mkBackdrop true (Some 1002%Z) None (Some (mkModalEl (Some 9) [8; 9] None))
                 [mkHandler 1 "m2" (JBool true)] (Some (mkHandler 1 "m2" (JBool true))))
              (mkMeta (JBool true) (JBool true) (JBool true) (Some 1) (JNum 300) JNull)
              "Escape")
    as (He & _ & Hk); [reflexivity|reflexivity|reflexivity|discriminate|reflexivity|].
  split; [|exact Hk]. rewrite He. unfold names_of. by rewrite map_app.
Defined.

Lemma splice_first_snoc id l : id ∉ l → splice_first id (l ++ [id]) = l.
Proof.
  induction l as [|x l IH]; cbn [splice_first app]; intros Hn.
  - by rewrite decide_True.
  - apply not_elem_of_cons in Hn as [Hx Hl].
    rewrite decide_False by done. by rewrite IH.
Qed.

(** X20: in the earlier version nothing holds the Escape key back. On a
    stack without duplicate that ends in [a] then [b], both with a
    container, a metadata entry and a [closable] other than [false], two
    Escape keys in a row close [b] and then [a]: the stack loses both at
    once. *)
Theorem escape_twice_000 s l a b ba bb ma mb :
  __stack s = l ++ [a; b] → NoDup (__stack s) →
  dom s !! a = Some ba → dom s !! b = Some bb →
  __meta s !! a = Some ma → __meta s !! b = Some mb →
  m_closable ma ≠ JBool false → m_closable mb ≠ JBool false →
  let s2 := Part000.keydown "Escape" (Part000.keydown "Escape" s) in
  __stack s2 = l ∧
  names_of (events s2) = names_of (events s) ++ [(EvClose, b); (EvClose, a)].
Proof.
  intros Hs Hnd Hba Hbb Hma Hmb Hca Hcb.
  assert (Hl : l ++ [a; b] = (l ++ [a]) ++ [b]) by (by rewrite <- app_assoc).
  rewrite Hs, Hl in Hnd.
  apply NoDup_app in Hnd as (Hnd1 & Hdis & _).
  apply NoDup_app in Hnd1 as (_ & Hdis1 & _).
  assert (Hne : a ≠ b).
  { intros ->. apply (Hdis b); [apply elem_of_app; right|]; by left. }
  assert (Hk1 : Part000.keydown "Escape" s = Part000.close b s).
  { unfold Part000.keydown. rewrite Hs, Hl, last_snoc, Hmb, length_app. cbn.
    rewrite Nat.add_comm. cbn. by rewrite !bool_decide_eq_true_2 by done. }
  destruct (close_000_cases b s bb mb Hbb Hmb) as (Hs1 & Hm1 & He1 & _ & _ & Hd1 & _).
  rewrite <- Hk1 in Hs1, Hm1, He1, Hd1. set (s1 := Part000.keydown "Escape" s) in *.
  clearbody s1.
  rewrite Hs, Hl, splice_first_snoc in Hs1.
  2:{ intros Hin. by apply (Hdis b Hin); left. }
  assert (Hba1 : dom s1 !! a = Some ba) by (by rewrite Hd1).
  assert (Hma1 : __meta s1 !! a = Some ma) by (by rewrite Hm1).
  assert (Hk2 : Part000.keydown "Escape" s1 = Part000.close a s1).
  { unfold Part000.keydown. rewrite Hs1, last_snoc, Hma1, length_app. cbn.
    rewrite Nat.add_comm. cbn. by rewrite !bool_decide_eq_true_2 by done. }
  destruct (close_000_cases a s1 ba ma Hba1 Hma1) as (Hs2 & _ & He2 & _).
  cbv zeta. rewrite Hk2, Hs2, He2, Hs1, He1. split.
  - apply splice_first_snoc. intros Hin. by apply (Hdis1 a Hin); left.
  - unfold names_of. by rewrite !map_app, <- app_assoc.
Qed.

Lemma escape_twice_000_witness :
  let s := Part000.run [Part000.AOpen "m1" no_options; Part000.AOpen "m2" no_options] demo in
  __stack (Part000.keydown "Escape" (Part000.keydown "Escape" s)) = [].
Proof.
  intros s.
  destruct (escape_twice_000 s [] "m1" "m2"
              (mkBackdrop true (Some 1001%Z) None (Some (mkModalEl None [7] None))
                 [mkHandler 0 "m1" (JBool true)] (Some (mkHandler 0 "m1" (JBool true))))
              (mkBackdrop true (Some 1002%Z) None (Some (mkModalEl (Some 9) [8; 9] None))
                 [mkHandler 1 "m2" (JBool true)] (Some (mkHandler 1 "m2" (JBool true))))
              (mkMeta JUndefined (JBool true) (JBool true) (Some 1) (JNum 300) JNull)
              (mkMeta JUndefined (JBool true) (JBool true) (Some 1) (JNum 300) JNull))
    as (Hs & _);
    [reflexivity| |reflexivity|reflexivity|reflexivity|reflexivity
    |discriminate|discriminate|exact Hs].
  vm_compute. apply NoDup_cons. split; [|apply NoDup_singleton].
  by intros ?%list_elem_of_singleton.
Defined.
